(** * serverless-step-functions: the plugin entry point (lib/index.js)

    A shallow embedding of the class [ServerlessStepFunctions]: its
    constructor, its lifecycle hooks, the [invoke] workflow and the
    post-deploy [display] step, together with the properties of the
    specification that concern them.

    The capability modules mixed into the plugin object with
    [Object.assign] (the compilers, the Execution Client, the YAML
    accessors), lodash, chalk and the logger are not part of this file of
    the plugin, and neither are the framework that hosts it nor the
    conversions of the JavaScript runtime ([toUpperCase], ToString): they
    enter the development as parameters. *)

From Stdlib Require Import String Ascii List ZArith Bool Lia.
Import ListNotations.
Local Open Scope list_scope.
Local Open Scope string_scope.

Set Implicit Arguments.

(* ===================================================================== *)
(** * JavaScript values *)
(* ===================================================================== *)

(** A string is the sequence of the bytes of its UTF-8 encoding.  The
    operations index.js applies to strings (concatenation, comparison with
    ASCII literals, splitting at an ASCII separator) commute with that
    encoding. *)

(** Values as they reach index.js from the configuration tree and from the
    remote service.  Numbers are the integers; objects keep their own
    enumerable properties in insertion order.  The conversions of the
    runtime that index.js relies on ([String.prototype.toUpperCase], and
    ToString inside a template literal) are not defined here: they are
    parameters of the code that uses them. *)
#[warnings="-register-all"]
Inductive Val : Type :=
| VUndefined
| VNull
| VBool (b : bool)
| VNum (n : Z)
| VStr (s : string)
| VArr (items : list Val)
| VObj (fields : list (string * Val)).

(** What a rejected promise or a thrown exception carries. *)
Inductive Err : Type :=
| TypeError (msg : string)
| Failure (reason : Val).

(** Outcome of a call: a value, or an error (a synchronous throw inside a
    [then] callback and a rejected promise are the same thing to the rest
    of the chain). *)
Inductive Res (A : Type) : Type :=
| Resolved (a : A)
| Rejected (e : Err).
Arguments Resolved {A} a.
Arguments Rejected {A} e.

Module JS.

(** ToBoolean. *)
Definition truthy (v : Val) : bool :=
  match v with
  | VUndefined | VNull => false
  | VBool b => b
  | VNum n => negb (n =? 0)%Z
  | VStr s => negb (s =? "")
  | VArr _ | VObj _ => true
  end.

(** [a || b]. *)
Definition or (a b : Val) : Val := if truthy a then a else b.

(** [x != null]. *)
Definition not_nullish (v : Val) : bool :=
  match v with
  | VUndefined | VNull => false
  | _ => true
  end.

(** [typeof v === 'object']. *)
Definition typeof_object (v : Val) : bool :=
  match v with
  | VNull | VArr _ | VObj _ => true
  | _ => false
  end.

(** [_.isArray]. *)
Definition isArray (v : Val) : bool :=
  match v with
  | VArr _ => true
  | _ => false
  end.

(** The elements of an array. *)
Definition items (v : Val) : list Val :=
  match v with
  | VArr l => l
  | _ => []
  end.

(** [v === 'lit'] for a string literal. *)
Definition is_string (lit : string) (v : Val) : bool :=
  match v with
  | VStr s => s =? lit
  | _ => false
  end.

(** [v === n] for a number literal. *)
Definition is_number (n : Z) (v : Val) : bool :=
  match v with
  | VNum m => (m =? n)%Z
  | _ => false
  end.

Fixpoint lookup (k : string) (fields : list (string * Val)) : Val :=
  match fields with
  | [] => VUndefined
  | (k', v) :: rest => if k' =? k then v else lookup k rest
  end.

(** [v[0] === 'c'] for an ASCII character [c]: the first code unit of a
    string, the first element of an array, the property [0] of an
    object. *)
Definition first_is (c : ascii) (v : Val) : bool :=
  match v with
  | VStr (String c' _) => Ascii.eqb c' c
  | VArr (x :: _) => is_string (String c EmptyString) x
  | VObj fields => is_string (String c EmptyString) (lookup "0" fields)
  | _ => false
  end.

(** What the runtime checks before the call [object.name(...)] of a
    method of the host, the methods of a host object being no part of
    its value: the method cannot be read from [null] or [undefined], and
    a value that is no plain object has none.  [callee] is the text of
    the called expression. *)
Definition method_of (object : Val) (name callee : string) : Res unit :=
  match object with
  | VUndefined =>
      Rejected (TypeError ("Cannot read properties of undefined (reading '" ++ name ++ "')"))
  | VNull =>
      Rejected (TypeError ("Cannot read properties of null (reading '" ++ name ++ "')"))
  | VObj _ => Resolved tt
  | _ => Rejected (TypeError (callee ++ " is not a function"))
  end.

(** Number of UTF-16 code units of a string given by its UTF-8 bytes:
    a continuation byte adds none, the lead byte of a four-byte sequence
    adds two (a surrogate pair), every other byte adds one. *)
Fixpoint utf16_length (s : string) : Z :=
  match s with
  | EmptyString => 0
  | String c rest =>
      let n := Z.of_nat (nat_of_ascii c) in
      ((if (n <? 128) then 1
        else if (n <? 192) then 0
        else if (n <? 240) then 1
        else 2) + utf16_length rest)%Z
  end.

(** Property read [v.k] for the property names index.js uses. *)
Definition get (v : Val) (k : string) : Res Val :=
  match v with
  | VUndefined =>
      Rejected (TypeError ("Cannot read properties of undefined (reading '" ++ k ++ "')"))
  | VNull =>
      Rejected (TypeError ("Cannot read properties of null (reading '" ++ k ++ "')"))
  | VObj fields => Resolved (lookup k fields)
  | VArr items =>
      Resolved (if k =? "length" then VNum (Z.of_nat (length items)) else VUndefined)
  | VStr s =>
      Resolved (if k =? "length" then VNum (utf16_length s) else VUndefined)
  | VBool _ | VNum _ => Resolved VUndefined
  end.

(** Array read [xs[i]]: [undefined] outside the bounds. *)
Definition index (xs : list Val) (i : Z) : Val :=
  if (i <? 0)%Z then VUndefined else nth (Z.to_nat i) xs VUndefined.

(** ** Strings *)

(** [s.split(sep)] for a one-character separator: the pieces between
    the separators, at least one piece. *)
Fixpoint split (sep : ascii) (s : string) : list string :=
  match s with
  | EmptyString => [EmptyString]
  | String c rest =>
      if Ascii.eqb c sep then EmptyString :: split sep rest
      else match split sep rest with
           | [] => [String c EmptyString]
           | piece :: pieces => String c piece :: pieces
           end
  end.

(** [pieces.filter(p => p !== '')]. *)
Definition nonempty (p : string) : bool := negb (p =? "").

(** [pieces.join(sep)]. *)
Fixpoint join (sep : string) (pieces : list string) : string :=
  match pieces with
  | [] => EmptyString
  | [p] => p
  | p :: rest => p ++ sep ++ join sep rest
  end.

(** [v.toUpperCase()]: defined on strings only, where it is the
    [String.prototype.toUpperCase] of the runtime, [toUpperCase]. *)
Definition call_toUpperCase (toUpperCase : string -> string) (v : Val)
  : Res string :=
  match v with
  | VStr s => Resolved (toUpperCase s)
  | VUndefined =>
      Rejected (TypeError "Cannot read properties of undefined (reading 'toUpperCase')")
  | VNull =>
      Rejected (TypeError "Cannot read properties of null (reading 'toUpperCase')")
  | _ => Rejected (TypeError "toUpperCase is not a function")
  end.

(** [v.split(sep)]: defined on strings only. *)
Definition call_split (v : Val) (sep : ascii) : Res (list string) :=
  match v with
  | VStr s => Resolved (split sep s)
  | VUndefined =>
      Rejected (TypeError "Cannot read properties of undefined (reading 'split')")
  | VNull =>
      Rejected (TypeError "Cannot read properties of null (reading 'split')")
  | _ => Rejected (TypeError "split is not a function")
  end.

(** [pieces[i]] on the array a split returns. *)
Definition piece (pieces : list string) (i : nat) : Val :=
  match nth_error pieces i with
  | Some s => VStr s
  | None => VUndefined
  end.

End JS.

(** Sequencing of fallible synchronous steps. *)
Definition and_then {A B : Type} (r : Res A) (k : A -> Res B) : Res B :=
  match r with
  | Resolved a => k a
  | Rejected e => Rejected e
  end.

Notation "'try' x <- r ; k" := (and_then r (fun x => k))
  (at level 10, x name, r at level 100, k at level 200).

(* ===================================================================== *)
(** * The plugin object and the process around it *)
(* ===================================================================== *)

(** The methods that [Object.assign] copies onto the plugin object and
    that index.js calls by name.  A run records the ones it called, in
    order. *)
Inductive Method : Type :=
| yamlParse
| compileIamRole
| compileStateMachines
| compileActivities
| compileAlarms
| compileNotifications
| compileScheduledEvents
| httpValidate
| compileRestApi
| compileResources
| compileMethods
| compileRequestValidators
| compileAuthorizers
| compileHttpLambdaPermissions
| compileCors
| compileHttpIamRole
| compileDeployment
| compileApiKeys
| compileUsagePlan
| compileUsagePlanKeys
| compileCloudWatchEventEvents
| getEndpointInfo
| getStateMachineArn
| startExecution
| describeExecution
| getExecutionHistory.

Definition Method_eqb (a b : Method) : bool :=
  match a, b with
  | yamlParse, yamlParse
  | compileIamRole, compileIamRole
  | compileStateMachines, compileStateMachines
  | compileActivities, compileActivities
  | compileAlarms, compileAlarms
  | compileNotifications, compileNotifications
  | compileScheduledEvents, compileScheduledEvents
  | httpValidate, httpValidate
  | compileRestApi, compileRestApi
  | compileResources, compileResources
  | compileMethods, compileMethods
  | compileRequestValidators, compileRequestValidators
  | compileAuthorizers, compileAuthorizers
  | compileHttpLambdaPermissions, compileHttpLambdaPermissions
  | compileCors, compileCors
  | compileHttpIamRole, compileHttpIamRole
  | compileDeployment, compileDeployment
  | compileApiKeys, compileApiKeys
  | compileUsagePlan, compileUsagePlan
  | compileUsagePlanKeys, compileUsagePlanKeys
  | compileCloudWatchEventEvents, compileCloudWatchEventEvents
  | getEndpointInfo, getEndpointInfo
  | getStateMachineArn, getStateMachineArn
  | startExecution, startExecution
  | describeExecution, describeExecution
  | getExecutionHistory, getExecutionHistory => true
  | _, _ => false
  end.

(** The response of [getExecutionHistory]: the ordered events. *)
Record History : Type := { events : list Val }.

(** The plugin object [this].  [E] is everything reachable from it that
    index.js never looks into: the host framework, the provider, the
    template being compiled, the state of the remote service. *)
Record Plugin (E : Type) : Type := {
  serverless : Val;
  options : Val;
  v3Api : Val;
  service : Val;
  region : Val;
  stage : Val;
  pluginhttpValidated : Val;
  validated : Val;
  endpointInfo : Val;
  rest : E
}.

(** The plugin object together with what index.js does to the process:
    the messages it hands to [logger.log], [process.exitCode] (0 while
    unset), and the mixin methods called so far, each with whether it
    resolved ([true]) or rejected ([false]). *)
Record World (E : Type) : Type := {
  plug : Plugin E;
  log : list Val;
  exitCode : Z;
  trace : list (Method * bool)
}.

Definition resolved {A : Type} (r : Res A) : bool :=
  match r with
  | Resolved _ => true
  | Rejected _ => false
  end.

Arguments Build_Plugin {E}.
Arguments Build_World {E}.

(** ** Promise chains

    A computation runs on the world and settles with a value or an error.
    [then_] is [promise.then(f)]: [f] runs on the resolved value, and a
    rejection passes it by. *)
Definition M (E A : Type) : Type := World E -> Res A * World E.

Definition resolve {E A : Type} (a : A) : M E A := fun w => (Resolved a, w).

Definition then_ {E A B : Type} (p : M E A) (f : A -> M E B) : M E B :=
  fun w =>
    match p w with
    | (Resolved a, w') => f a w'
    | (Rejected e, w') => (Rejected e, w')
    end.

(** A synchronous expression evaluated inside a callback. *)
Definition eval {E A : Type} (r : Res A) : M E A := fun w => (r, w).

Notation "p >>= f" := (then_ p f) (at level 58, left associativity).
Notation "x <- p ;; k" := (then_ p (fun x => k))
  (at level 61, p at next level, right associativity).
Notation "p ;; k" := (then_ p (fun _ => k))
  (at level 61, right associativity).

(** [BbPromise.bind(this)]: a promise resolved with [undefined] whose
    callbacks run with the plugin object as [this]. *)
Definition BbPromise_bind {E : Type} : M E Val := resolve VUndefined.

(** [BbPromise.resolve()]. *)
Definition BbPromise_resolve {E : Type} : M E Val := resolve VUndefined.

Definition this {E : Type} : M E (Plugin E) := fun w => (Resolved (plug w), w).

Definition logger_log {E : Type} (msg : Val) : M E unit :=
  fun w =>
    (Resolved tt,
     {| plug := plug w; log := log w ++ [msg];
        exitCode := exitCode w; trace := trace w |}).

Definition set_exitCode {E : Type} (code : Z) : M E unit :=
  fun w =>
    (Resolved tt,
     {| plug := plug w; log := log w; exitCode := code; trace := trace w |}).

Definition set_pluginhttpValidated {E : Type} (v : Val) : M E unit :=
  fun w =>
    let p := plug w in
    (Resolved tt,
     {| plug := {| serverless := serverless p; options := options p;
                   v3Api := v3Api p; service := service p; region := region p;
                   stage := stage p; pluginhttpValidated := v;
                   validated := validated p; endpointInfo := endpointInfo p;
                   rest := rest p |};
        log := log w; exitCode := exitCode w; trace := trace w |}).

Definition set_validated {E : Type} (v : Val) : M E unit :=
  fun w =>
    let p := plug w in
    (Resolved tt,
     {| plug := {| serverless := serverless p; options := options p;
                   v3Api := v3Api p; service := service p; region := region p;
                   stage := stage p; pluginhttpValidated := pluginhttpValidated p;
                   validated := v; endpointInfo := endpointInfo p;
                   rest := rest p |};
        log := log w; exitCode := exitCode w; trace := trace w |}).

(* ===================================================================== *)
(** * The constructor *)
(* ===================================================================== *)

(** [serverless.version && serverless.version[0] === '4']. *)
Definition is_v4 (serverless : Val) : Res bool :=
  try version <- JS.get serverless "version";
  Resolved (andb (JS.truthy version) (JS.first_is "4" version)).

(** The constructor.  [host] is what the plugin object reaches and
    index.js never looks into; the three calls into the framework act on
    it and may throw: [getProvider] is
    [this.provider = this.serverless.getProvider('aws')], [logger_config]
    is [logger.config(serverless, v3Api)], and [defineCustomProperties]
    is the registration of the schema of the v4 configuration.  Between
    the two tests of the version the source mixes the modules in
    (methods, none named like a field assigned here) and declares the
    command and the hooks, which throws nothing. *)
Definition constructor {E : Type}
  (getProvider logger_config defineCustomProperties : E -> Res E)
  (serverless options v3Api : Val) (host : E) : Res (Plugin E) :=
  try callable <- JS.method_of serverless "getProvider"
                    "this.serverless.getProvider";
  try host1 <- getProvider host;
  try svc <- JS.get serverless "service";
  try name <- JS.get svc "service";
  try provider <- JS.get svc "provider";
  try region <- JS.get provider "region";
  try stage <- JS.get provider "stage";
  try v4 <- is_v4 serverless;
  try host2 <- logger_config host1;
  try v4' <- is_v4 serverless;
  try host3 <-
    (if v4' then
       try handler <- JS.get serverless "configSchemaHandler";
       try callable' <- JS.method_of handler "defineCustomProperties"
                          "this.serverless.configSchemaHandler.defineCustomProperties";
       defineCustomProperties host2
     else Resolved host2);
  Resolved
    {| serverless := serverless;
       options := JS.or options (VObj []);
       v3Api := v3Api;
       service := name;
       region := region;
       stage := JS.or stage (VStr "ap-southeast-2");
       pluginhttpValidated := VUndefined;
       validated := VUndefined;
       endpointInfo := VUndefined;
       rest := host3 |}.

(* ===================================================================== *)
(** * Hooks, invoke and display *)
(* ===================================================================== *)

Section Index.

Variable E : Type.

(** A mixed-in method called with one argument on the plugin object: it
    may change the object and settles with a value or an error. *)
Variable mixin : Method -> Val -> Plugin E -> Res Val * Plugin E.

(** [getExecutionHistory] of the Execution Client. *)
Variable executionHistory : Plugin E -> Res History * Plugin E.

(** The synchronous accessors of the YAML module. *)
Variable isStateMachines : Plugin E -> Res Val.
Variable getAllStateMachines : Plugin E -> Res (list Val).
Variable getStateMachine : Val -> Plugin E -> Res Val.

(** [_.merge] of lodash. *)
Variable merge : Val -> Val -> Val.

(** The chalk styles [chalk.hex('#fd5750')], [chalk.grey],
    [chalk.yellow] and [chalk.yellow.underline]. *)
Variables slsRed grey yellow yellow_underline : string -> string.

(** [String.prototype.toUpperCase] of the runtime. *)
Variable toUpperCase : string -> string.

(** ToString of the runtime, as a template literal applies it to
    [${value}]. *)
Variable toString : Val -> string.

(** [this.m(arg)]. *)
Definition call (m : Method) (arg : Val) : M E Val :=
  fun w =>
    let (r, p') := mixin m arg (plug w) in
    (r, {| plug := p'; log := log w; exitCode := exitCode w;
           trace := trace w ++ [(m, resolved r)] |}).

(** [this.getExecutionHistory()]. *)
Definition call_getExecutionHistory : M E History :=
  fun w =>
    let (r, p') := executionHistory (plug w) in
    (r, {| plug := p'; log := log w; exitCode := exitCode w;
           trace := trace w ++ [(getExecutionHistory, resolved r)] |}).

(** ** invoke *)

(** The last callback of the chain of [invoke], on the result of
    [describeExecution]. *)
Definition after_report (result : Val) : M E Val :=
  logger_log (VStr "") ;;
  status <- eval (JS.get result "status") ;;
  if JS.is_string "FAILED" status then
    call_getExecutionHistory
      >>= (fun error =>
             details <- eval
               (JS.get
                  (JS.index (events error)
                     (Z.of_nat (length (events error)) - 1))
                  "executionFailedEventDetails") ;;
             logger_log (merge result details) ;;
             set_exitCode 1 ;;
             resolve VUndefined)
  else
    logger_log result ;;
    BbPromise_resolve.

Definition invoke : M E Val :=
  BbPromise_bind
    >>= call getStateMachineArn
    >>= call startExecution
    >>= call describeExecution
    >>= after_report.

(** The chain of [invoke] before its last callback: what
    [describeExecution] reports. *)
Definition reported : M E Val :=
  BbPromise_bind
    >>= call getStateMachineArn
    >>= call startExecution
    >>= call describeExecution.

(** ** display *)

(** The text before the endpoint lines. *)
Definition heading (p : Plugin E) : string :=
  if JS.truthy (v3Api p) then
    (String "010" (slsRed "✔") ++ " Serverless StepFunctions Outputs" ++ String "010" "")
      ++ grey "endpoints:"
  else
    (yellow_underline "Serverless StepFunctions Outputs" ++ String "010" "")
      ++ yellow "endpoints:".

(** The method and the path of an [http] property that is set. *)
Definition method_and_path (http : Val) : Res (string * Val) :=
  if JS.typeof_object http then
    try m <- JS.get http "method";
    try method <- JS.call_toUpperCase toUpperCase m;
    try path <- JS.get http "path";
    Resolved (method, path)
  else
    try pieces <- JS.call_split http " ";
    try method <- JS.call_toUpperCase toUpperCase (JS.piece pieces 0);
    try pieces' <- JS.call_split http " ";
    Resolved (method, JS.piece pieces' 1).

(** [path !== '/' ? `/${path.split('/').filter(p => p !== '').join('/')}` : ''] *)
Definition normalize_path (path : Val) : Res string :=
  if negb (JS.is_string "/" path) then
    try pieces <- JS.call_split path "/";
    Resolved ("/" ++ JS.join "/" (filter JS.nonempty pieces))
  else Resolved "".

(** The callback of [stateMachineObj.events.forEach]: what one event
    adds to [stateMachineMessages]. *)
Definition event_message (endpoint : Val) (event : Val) : Res string :=
  try http <- JS.get event "http";
  if JS.truthy http then
    try mp <- method_and_path http;
    try path <- normalize_path (snd mp);
    Resolved (String "010" "  " ++ fst mp ++ " - " ++ toString endpoint ++ path)
  else Resolved "".

Fixpoint forEach_event (endpoint : Val) (evs : list Val) (messages : string)
  : Res string :=
  match evs with
  | [] => Resolved messages
  | event :: more =>
      try added <- event_message endpoint event;
      forEach_event endpoint more (messages ++ added)
  end.

(** The callback of [_.forEach(this.getAllStateMachines(), ...)]. *)
Definition machine_messages (p : Plugin E) (stateMachineName : Val)
  (messages : string) : Res string :=
  try stateMachineObj <- getStateMachine stateMachineName p;
  try evs <- JS.get stateMachineObj "events";
  if andb (JS.not_nullish evs) (JS.isArray evs) then
    forEach_event (endpointInfo p) (JS.items evs) messages
  else Resolved messages.

Fixpoint forEach_machine (p : Plugin E) (names : list Val) (messages : string)
  : Res string :=
  match names with
  | [] => Resolved messages
  | name :: more =>
      try messages' <- machine_messages p name messages;
      forEach_machine p more messages'
  end.

Definition stateMachineMessages (p : Plugin E) : Res string :=
  try some <- isStateMachines p;
  if JS.truthy some then
    try names <- getAllStateMachines p;
    forEach_machine p names ""
  else Resolved "".

Definition display : M E Val :=
  p <- this ;;
  messages <- eval (stateMachineMessages p) ;;
  if messages =? "" then resolve (VStr "")
  else
    let message := (heading p ++ messages) ++ String "010" "" in
    logger_log (VStr message) ;;
    resolve (VStr message).

(** ** Hooks *)

Definition invoke_stepf_invoke : M E Val :=
  BbPromise_bind >>= call yamlParse >>= (fun _ => invoke).

Definition package_initialize : M E Val :=
  BbPromise_bind >>= call yamlParse.

Definition package_compileFunctions : M E Val :=
  BbPromise_bind
    >>= call compileIamRole
    >>= call compileStateMachines
    >>= call compileActivities
    >>= call compileAlarms
    >>= call compileNotifications.

Definition http_chain : M E Val :=
  BbPromise_bind
    >>= call compileRestApi
    >>= call compileResources
    >>= call compileMethods
    >>= call compileRequestValidators
    >>= call compileAuthorizers
    >>= call compileHttpLambdaPermissions
    >>= call compileCors
    >>= call compileHttpIamRole
    >>= call compileDeployment
    >>= call compileApiKeys
    >>= call compileUsagePlan
    >>= call compileUsagePlanKeys.

Definition package_compileEvents : M E Val :=
  call compileScheduledEvents VUndefined
    >>= (fun _ =>
           v <- call httpValidate VUndefined ;;
           set_pluginhttpValidated v ;;
           p <- this ;;
           set_validated (pluginhttpValidated p) ;;
           p' <- this ;;
           evs <- eval (JS.get (pluginhttpValidated p') "events") ;;
           len <- eval (JS.get evs "length") ;;
           if JS.is_number 0 len then BbPromise_resolve
           else http_chain)
    >>= (fun _ => call compileCloudWatchEventEvents VUndefined).

Definition after_deploy_deploy : M E Val :=
  BbPromise_bind >>= call getEndpointInfo >>= (fun _ => display).

End Index.

(* ===================================================================== *)
(** * Http bindings, as the specification describes the output *)
(* ===================================================================== *)

(** The [http] property of an Http-bound event: an event is Http-bound
    when it has one that is set. *)
Definition bound_http (event : Val) : option Val :=
  match JS.get event "http" with
  | Resolved http => if JS.truthy http then Some http else None
  | Rejected _ => None
  end.

(** The two shapes of an http binding: an object with the fields
    [method] and [path], or one string, the method and the path its
    first two space-separated tokens. *)
Definition binding_of (http : Val) : option (string * string) :=
  match http with
  | VObj fields =>
      match JS.lookup "method" fields, JS.lookup "path" fields with
      | VStr m, VStr p => Some (m, p)
      | _, _ => None
      end
  | VStr s =>
      match JS.split " " s with
      | m :: p :: _ => Some (m, p)
      | _ => None
      end
  | _ => None
  end.

(** The non-empty segments of a path. *)
Definition segments (path : string) : list string :=
  filter JS.nonempty (JS.split "/" path).

(** The path as shown: nothing for the root path, else a slash and the
    non-empty segments joined by slashes. *)
Definition shown_path (path : string) : string :=
  if path =? "/" then "" else "/" ++ JS.join "/" (segments path).

(** [<METHOD> - <endpoint-host><path>], on a line of its own, indented;
    [upper] is the upper-casing of the runtime. *)
Definition endpoint_line (upper : string -> string)
  (host method path : string) : string :=
  String "010" "  " ++ upper method ++ " - " ++ host ++ shown_path path.

Definition line_of (upper : string -> string) (host : string) (http : Val)
  : string :=
  match binding_of http with
  | Some (m, p) => endpoint_line upper host m p
  | None => ""
  end.

(** The events of a state machine: its [events] array, if it has one. *)
Definition machine_events (stateMachineObj : Val) : list Val :=
  match JS.get stateMachineObj "events" with
  | Resolved (VArr items) => items
  | _ => []
  end.

(** The http bindings of the Http-bound events, over all the state
    machines, in order. *)
Definition http_bindings (machines : list Val) : list Val :=
  flat_map
    (fun obj =>
       flat_map
         (fun event =>
            match bound_http event with
            | Some http => [http]
            | None => []
            end)
         (machine_events obj))
    machines.

(** A state machine of a well-formed configuration: an object whose
    events are objects or scalars, each http binding in one of the two
    shapes. *)
Definition well_formed_event (event : Val) : bool :=
  match JS.get event "http" with
  | Resolved http =>
      if JS.truthy http
      then match binding_of http with Some _ => true | None => false end
      else true
  | Rejected _ => false
  end.

Definition well_formed_machine (stateMachineObj : Val) : bool :=
  andb (JS.not_nullish stateMachineObj)
       (forallb well_formed_event (machine_events stateMachineObj)).

Fixpoint all_chars (f : ascii -> bool) (s : string) : bool :=
  match s with
  | EmptyString => true
  | String c rest => andb (f c) (all_chars f rest)
  end.

(** [s] has no character [c]. *)
Definition free_of (c : ascii) (s : string) : bool :=
  all_chars (fun x => negb (Ascii.eqb x c)) s.

(** A segment of a shown path: not empty, no slash in it. *)
Definition proper_segment (seg : string) : bool :=
  andb (JS.nonempty seg) (free_of "/" seg).

(** The text of a list of lines. *)
Definition text (lines : list string) : string :=
  fold_right append "" lines.

(** The state machines the YAML accessors give for the plugin object
    [p]: none when [isStateMachines] answers no, else the objects
    [getStateMachine] returns for the names of [getAllStateMachines]. *)
Definition configured {E : Type}
  (isStateMachines : Plugin E -> Res Val)
  (getAllStateMachines : Plugin E -> Res (list Val))
  (getStateMachine : Val -> Plugin E -> Res Val)
  (p : Plugin E) (machines : list Val) : Prop :=
  exists some,
    isStateMachines p = Resolved some
    /\ if JS.truthy some
       then exists names,
           getAllStateMachines p = Resolved names
           /\ Forall2 (fun name obj => getStateMachine name p = Resolved obj)
                names machines
       else machines = [].

(** The world after [logger.log(message)]. *)
Definition logged {E : Type} (message : string) (w : World E) : World E :=
  {| plug := plug w; log := log w ++ [VStr message];
     exitCode := exitCode w; trace := trace w |}.

(** The state machine of the end-to-end scenario B. *)
Definition order_flow : Val :=
  VObj [("events",
         VArr [VObj [("http",
                      VObj [("path", VStr "orders");
                            ("method", VStr "post")])]])].

(** The mixed-in methods leave [this.stage] alone. *)
Definition keeps_stage {E : Type}
  (mixin : Method -> Val -> Plugin E -> Res Val * Plugin E) : Prop :=
  forall m arg p, stage (snd (mixin m arg p)) = stage p.

(* ===================================================================== *)
(** * Scenarios *)
(* ===================================================================== *)

(** The end-to-end scenarios of the specification, with the template
    reduced to the logical identifiers emitted so far. *)
Module Scenario.

Definition config : Val :=
  VObj [("service",
         VObj [("service", VStr "orders");
               ("provider", VObj [("region", VStr "us-east-1")])])].

Definition endpoint : string :=
  "https://abc123.execute-api.us-east-1.amazonaws.com/dev".

(** A call into the framework that returns. *)
Definition host_call (h : list string) : Res (list string) := Resolved h.

(** The plugin object as the constructor leaves it. *)
Definition constructed : Plugin (list string) :=
  {| serverless := config;
     options := VObj [];
     v3Api := VBool true;
     service := VStr "orders";
     region := VStr "us-east-1";
     stage := VStr "ap-southeast-2";
     pluginhttpValidated := VUndefined;
     validated := VUndefined;
     endpointInfo := VUndefined;
     rest := [] |}.

(** The plugin object once the endpoint is known. *)
Definition plugin : Plugin (list string) :=
  {| serverless := config;
     options := VObj [];
     v3Api := VBool true;
     service := VStr "orders";
     region := VStr "us-east-1";
     stage := VStr "ap-southeast-2";
     pluginhttpValidated := VUndefined;
     validated := VUndefined;
     endpointInfo := VStr endpoint;
     rest := [] |}.

Definition world : World (list string) :=
  {| plug := plugin; log := []; exitCode := 0; trace := [] |}.

(** What a phase adds to the template. *)
Definition emits (m : Method) : list string :=
  match m with
  | compileIamRole => ["OrderFlowRole"]
  | compileStateMachines => ["OrderFlow"]
  | compileRestApi => ["ApiGatewayRestApiStepFunctions"]
  | compileResources => ["ApiGatewayResourceOrders"]
  | compileMethods => ["ApiGatewayMethodOrdersPost"]
  | compileHttpIamRole => ["ApigatewayToStepFunctionsRole"]
  | compileDeployment => ["ApiGatewayDeployment"]
  | _ => []
  end.

Definition emit (m : Method) (p : Plugin (list string)) : Plugin (list string) :=
  {| serverless := serverless p; options := options p; v3Api := v3Api p;
     service := service p; region := region p; stage := stage p;
     pluginhttpValidated := pluginhttpValidated p;
     validated := validated p; endpointInfo := endpointInfo p;
     rest := (rest p ++ emits m)%list |}.

(** Mixed-in methods that all resolve: [httpValidate] with [validated],
    [describeExecution] with [execution]. *)
Definition mixin (validated execution : Val)
  : Method -> Val -> Plugin (list string) -> Res Val * Plugin (list string) :=
  fun m _ p =>
    match m with
    | httpValidate => (Resolved validated, p)
    | getStateMachineArn =>
        (Resolved (VStr "arn:aws:states:us-east-1:123456789012:stateMachine:OrderFlow"), p)
    | startExecution =>
        (Resolved (VStr "arn:aws:states:us-east-1:123456789012:execution:OrderFlow:run"), p)
    | describeExecution => (Resolved execution, p)
    | _ => (Resolved VUndefined, emit m p)
    end.

Definition post_orders : Val :=
  VObj [("http", VObj [("path", VStr "orders"); ("method", VStr "post")])].

(** Scenario A: no events. Scenario B: one http event. *)
Definition validated_none : Val := VObj [("events", VArr [])].
Definition validated_one : Val := VObj [("events", VArr [post_orders])].

(** Scenario C: a failed execution and its history. *)
Definition failed : Val :=
  VObj [("name", VStr "run"); ("status", VStr "FAILED")].
Definition succeeded : Val :=
  VObj [("name", VStr "run"); ("status", VStr "SUCCEEDED");
        ("output", VStr "{}")].

Definition failure_details : Val :=
  VObj [("error", VStr "States.TaskFailed"); ("cause", VStr "out of stock")].

Definition history : Plugin (list string) -> Res History * Plugin (list string) :=
  fun p =>
    (Resolved
       {| events :=
            [VObj [("type", VStr "ExecutionStarted")];
             VObj [("type", VStr "ExecutionFailed");
                   ("executionFailedEventDetails", failure_details)]] |},
     p).

(** The history request failing in transit. *)
Definition history_unavailable
  : Plugin (list string) -> Res History * Plugin (list string) :=
  fun p => (Rejected (Failure (VStr "ThrottlingException")), p).

Fixpoint assign (k : string) (v : Val) (fields : list (string * Val))
  : list (string * Val) :=
  match fields with
  | [] => [(k, v)]
  | (k', v') :: more =>
      if k' =? k then (k', v) :: more else (k', v') :: assign k v more
  end.

(** [_.merge] on objects whose properties are scalars, as the results
    and the failure details above are. *)
Definition merge (object source : Val) : Val :=
  match object, source with
  | VObj fo, VObj fs =>
      VObj (fold_left (fun acc kv => assign (fst kv) (snd kv) acc) fs fo)
  | _, _ => object
  end.

(** chalk without colour support. *)
Definition plain (s : string) : string := s.

(** Upper-casing on the ASCII letters, where it is what
    [String.prototype.toUpperCase] does; the methods of the scenarios are
    ASCII. *)
Definition upper_ascii (c : ascii) : ascii :=
  let n := nat_of_ascii c in
  if andb (97 <=? n)%nat (n <=? 122)%nat then ascii_of_nat (n - 32) else c.

Fixpoint toUpperCase (s : string) : string :=
  match s with
  | EmptyString => EmptyString
  | String c more => String (upper_ascii c) (toUpperCase more)
  end.

(** ToString on the values an endpoint takes in the scenarios: a
    string, or [undefined] while none is known (and [null], booleans and
    plain objects as the runtime prints them; numbers and arrays are not
    endpoints here). *)
Definition toString (v : Val) : string :=
  match v with
  | VStr s => s
  | VUndefined => "undefined"
  | VNull => "null"
  | VBool b => if b then "true" else "false"
  | VObj _ => "[object Object]"
  | VNum _ | VArr _ => ""
  end.

(** The YAML accessors over the one state machine [OrderFlow]. *)
Definition isStateMachines (p : Plugin (list string)) : Res Val :=
  Resolved (VBool true).
Definition getAllStateMachines (p : Plugin (list string)) : Res (list Val) :=
  Resolved [VStr "OrderFlow"].
Definition getStateMachine (name : Val) (p : Plugin (list string)) : Res Val :=
  if JS.is_string "OrderFlow" name then Resolved order_flow
  else Rejected (Failure (VStr "stateMachine doesn't exist in this Service")).

End Scenario.

(* ===================================================================== *)
(** * Orders of the phases *)
(* ===================================================================== *)

(** The methods named by a trace. *)
Definition called (t : list (Method * bool)) : list Method := map fst t.

(** The compilers of the [package:compileFunctions] hook, as chained. *)
Definition functions_order : list Method :=
  [compileIamRole; compileStateMachines; compileActivities;
   compileAlarms; compileNotifications].

(** The HTTP compiler chain, as chained. *)
Definition http_order : list Method :=
  [compileRestApi; compileResources; compileMethods;
   compileRequestValidators; compileAuthorizers;
   compileHttpLambdaPermissions; compileCors; compileHttpIamRole;
   compileDeployment; compileApiKeys; compileUsagePlan;
   compileUsagePlanKeys].

(** The [package:compileEvents] hook when HTTP events exist, and when
    none does. *)
Definition events_order : list Method :=
  ([compileScheduledEvents; httpValidate] ++ http_order
     ++ [compileCloudWatchEventEvents])%list.

Definition events_order_without_http : list Method :=
  [compileScheduledEvents; httpValidate; compileCloudWatchEventEvents].

(** [a] is called at some point and [b] at a later one. *)
Fixpoint runs_before (a b : Method) (l : list Method) : bool :=
  match l with
  | [] => false
  | x :: more =>
      orb (andb (Method_eqb x a) (existsb (Method_eqb b) more))
          (runs_before a b more)
  end.

(** Every call but the last one of the trace resolved. *)
Definition stops_at_first_failure (t : list (Method * bool)) : bool :=
  forallb snd (removelast t).

(** [t] starts with [l1]. *)
Fixpoint starts_with (l1 t : list Method) : bool :=
  match l1, t with
  | [], _ => true
  | a :: l1', b :: t' => andb (Method_eqb a b) (starts_with l1' t')
  | _ :: _, [] => false
  end.

(** [this.pluginhttpValidated.events.length], as the callback of the
    event hook reads it from what [httpValidate] returned. *)
Definition events_length (v : Val) : Res Val :=
  try evs <- JS.get v "events";
  JS.get evs "length".

(** Some HTTP-triggered event exists: the validated event list is there
    and its length is not 0. *)
Definition has_http_events (v : Val) : bool :=
  match events_length v with
  | Resolved len => negb (JS.is_number 0 len)
  | Rejected _ => false
  end.

(** No HTTP-triggered event exists: the validated event list is empty. *)
Definition no_http_events (v : Val) : bool :=
  match events_length v with
  | Resolved len => JS.is_number 0 len
  | Rejected _ => false
  end.

(** The order the specification gives to the event hook, as a property of
    the methods [l] a run called: every HTTP compiler that ran did so
    before the schedule compiler and before the event-bus compiler, and
    neither of the two ran ahead of it. *)
Definition http_chain_runs_first (l : list Method) : Prop :=
  forall h, In h http_order -> In h l ->
    (In compileScheduledEvents l -> runs_before h compileScheduledEvents l = true)
    /\ (In compileCloudWatchEventEvents l ->
        runs_before h compileCloudWatchEventEvents l = true)
    /\ runs_before compileScheduledEvents h l = false
    /\ runs_before compileCloudWatchEventEvents h l = false.

(** The order the code gives to it: every HTTP compiler that ran did so
    after the schedule compiler, and before the event-bus compiler if
    that one ran; the event-bus compiler never ran ahead of an HTTP
    compiler, nor an HTTP compiler ahead of the schedule compiler. *)
Definition schedule_http_eventbus (l : list Method) : Prop :=
  forall h, In h http_order -> In h l ->
    runs_before compileScheduledEvents h l = true
    /\ (In compileCloudWatchEventEvents l ->
        runs_before h compileCloudWatchEventEvents l = true)
    /\ runs_before h compileScheduledEvents l = false
    /\ runs_before compileCloudWatchEventEvents h l = false.

(** A run of a hook from [w] fails fast with respect to the complete
    orders [orders]: every call before the last one resolved; a run that
    resolves made all the calls of one of the orders and each resolved; a
    run that rejects made an initial part of one of them; and a call that
    rejected leaves the run rejected. *)
Definition fails_fast {E : Type} (orders : list (list Method))
  (hook : M E Val) (w : World E) : Prop :=
  exists t,
    trace (snd (hook w)) = (trace w ++ t)%list
    /\ stops_at_first_failure t = true
    /\ (if forallb snd t then True else resolved (fst (hook w)) = false)
    /\ match fst (hook w) with
       | Resolved _ => forallb snd t = true /\ In (called t) orders
       | Rejected _ =>
           exists order, In order orders /\ starts_with (called t) order = true
       end.

(** The calls a run of [invoke] makes up to and including
    [describeExecution], all resolved. *)
Definition requests : list (Method * bool) :=
  [(getStateMachineArn, true); (startExecution, true);
   (describeExecution, true)].

(** The sentence of the specification on failed executions, for a given
    Execution Client: whenever [describeExecution] reports the status
    'FAILED', the run fetches the history, prints the details of its last
    event merged into the result, and sets the exit code to 1. *)
Definition failed_execution_always_surfaced {E : Type}
  (mixin : Method -> Val -> Plugin E -> Res Val * Plugin E)
  (executionHistory : Plugin E -> Res History * Plugin E)
  (merge : Val -> Val -> Val) : Prop :=
  forall (w w1 : World E) (result : Val),
    reported mixin w = (Resolved result, w1) ->
    JS.get result "status" = Resolved (VStr "FAILED") ->
    let w' := snd (invoke mixin executionHistory merge w) in
    In getExecutionHistory (called (trace w'))
    /\ (exists details, log w' = (log w ++ [VStr ""; merge result details])%list)
    /\ exitCode w' = 1%Z.

(* ===================================================================== *)
(** * More on the hooks, invoke, display and the constructor *)
(* ===================================================================== *)

(** The calls of the [invoke:stepf:invoke] hook: [yamlParse], the three
    requests, and the history when the execution failed. *)
Definition invoke_order : list Method :=
  [yamlParse; getStateMachineArn; startExecution; describeExecution].

Definition invoke_order_failed : list Method :=
  (invoke_order ++ [getExecutionHistory])%list.

(** The world after a call of [m] that left the plugin object [p]. *)
Definition after_call {E : Type} (m : Method) (ok : bool) (p : Plugin E)
  (w : World E) : World E :=
  {| plug := p; log := log w; exitCode := exitCode w;
     trace := trace w ++ [(m, ok)] |}.

(** The mixed-in methods other than [httpValidate] leave
    [this.pluginhttpValidated] and [this.validated] alone. *)
Definition keeps_validated {E : Type}
  (mixin : Method -> Val -> Plugin E -> Res Val * Plugin E) : Prop :=
  forall m arg p,
    m <> httpValidate ->
    pluginhttpValidated (snd (mixin m arg p)) = pluginhttpValidated p
    /\ validated (snd (mixin m arg p)) = validated p.

(** The plugin object after [this.pluginhttpValidated = v] and
    [this.validated = this.pluginhttpValidated]. *)
Definition with_validated {E : Type} (v : Val) (p : Plugin E) : Plugin E :=
  {| serverless := serverless p; options := options p; v3Api := v3Api p;
     service := service p; region := region p; stage := stage p;
     pluginhttpValidated := v; validated := v;
     endpointInfo := endpointInfo p; rest := rest p |}.

(** The world of the event hook once the schedule compiler and
    [httpValidate] have resolved, the latter with [v], leaving the plugin
    object [p], and the callback has stored [v]. *)
Definition validated_world {E : Type} (v : Val) (p : Plugin E) (w : World E)
  : World E :=
  {| plug := with_validated v p; log := log w; exitCode := exitCode w;
     trace := trace w ++ [(compileScheduledEvents, true); (httpValidate, true)] |}.

(** The calls made between the world [w] and the later world [w']. *)
Definition made {E : Type} (w w' : World E) : list (Method * bool) :=
  skipn (length (trace w)) (trace w').

(** [result.status === 'FAILED'], false when the status cannot be
    read. *)
Definition status_failed (result : Val) : bool :=
  match JS.get result "status" with
  | Resolved status => JS.is_string "FAILED" status
  | Rejected _ => false
  end.

(** The sentence of the specification on the display step, without a
    condition on the configuration: the step returns and logs the
    heading and one line for each Http-bound event of the state machines
    [machines], or returns the empty string without logging when there
    is none. *)
Definition every_binding_shown {E : Type}
  (isStateMachines : Plugin E -> Res Val)
  (getAllStateMachines : Plugin E -> Res (list Val))
  (getStateMachine : Val -> Plugin E -> Res Val)
  (slsRed grey yellow yellow_underline upper : string -> string)
  (toString : Val -> string) : Prop :=
  forall (w : World E) (machines : list Val),
    configured isStateMachines getAllStateMachines getStateMachine
      (plug w) machines ->
    let host := toString (endpointInfo (plug w)) in
    let message :=
      (heading slsRed grey yellow yellow_underline (plug w)
         ++ text (map (line_of upper host) (http_bindings machines)))
        ++ String "010" "" in
    display isStateMachines getAllStateMachines getStateMachine
      slsRed grey yellow yellow_underline upper toString w
    = match http_bindings machines with
      | [] => (Resolved (VStr ""), w)
      | _ :: _ => (Resolved (VStr message), logged message w)
      end.

(** A path made of slashes only (the empty path among them). *)
Definition only_slashes (path : string) : bool :=
  all_chars (fun c => Ascii.eqb c "/") path.

(** Runs that go wrong. *)
Module Failure.

(** [startExecution] rejecting: the state machine does not exist. *)
Definition no_such_machine
  : Method -> Val -> Plugin (list string) -> Res Val * Plugin (list string) :=
  fun m arg p =>
    match m with
    | startExecution => (Rejected (Failure (VStr "StateMachineDoesNotExist")), p)
    | _ => Scenario.mixin Scenario.validated_none Scenario.failed m arg p
    end.

(** [getEndpointInfo] storing the endpoint it found. *)
Definition found_endpoint
  : Method -> Val -> Plugin (list string) -> Res Val * Plugin (list string) :=
  fun m arg p =>
    match m with
    | getEndpointInfo =>
        (Resolved VUndefined,
         {| serverless := serverless p; options := options p;
            v3Api := v3Api p; service := service p; region := region p;
            stage := stage p;
            pluginhttpValidated := pluginhttpValidated p;
            validated := validated p;
            endpointInfo := VStr Scenario.endpoint;
            rest := rest p |})
    | _ => Scenario.mixin Scenario.validated_none Scenario.failed m arg p
    end.

(** A history whose last event is [null]. *)
Definition history_null_event
  : Plugin (list string) -> Res History * Plugin (list string) :=
  fun p =>
    (Resolved {| events := [VObj [("type", VStr "ExecutionStarted")]; VNull] |},
     p).

(** A state machine with one good binding and one without a path. *)
Definition half_bound : Val :=
  VObj [("events", VArr [Scenario.post_orders; VObj [("http", VStr "GET")]])].

End Failure.

Unset Implicit Arguments.

(* ===================================================================== *)
(** * Strings *)
(* ===================================================================== *)

Example split_method_path : JS.split " " "POST orders" = ["POST"; "orders"].
Proof. reflexivity. Qed.

Example split_empty : JS.split "/" "" = [""].
Proof. reflexivity. Qed.

Example split_doubled : JS.split "/" "/a//b/" = [""; "a"; ""; "b"; ""].
Proof. reflexivity. Qed.

(* ===================================================================== *)
(** * Hooks and invoke *)
(* ===================================================================== *)

Section IndexFacts.

Variable E : Type.
Variable mixin : Method -> Val -> Plugin E -> Res Val * Plugin E.
Variable executionHistory : Plugin E -> Res History * Plugin E.
Variable merge : Val -> Val -> Val.

Ltac run_call :=
  match goal with
  | |- context [mixin ?m ?a ?p] =>
      let r := fresh "r" in
      let p' := fresh "p" in
      let Hc := fresh "Hcall" in
      destruct (mixin m a p) as [r p'] eqn:Hc; destruct r; cbn
  end.


Ltac run_glue :=
  match goal with
  | |- context [JS.get ?v ?k] =>
      let g := fresh "g" in
      let Hg := fresh "Hget" in
      destruct (JS.get v k) as [g|g] eqn:Hg; cbn
  | |- context [JS.is_number ?n ?v] =>
      let Hn := fresh "Hnum" in
      destruct (JS.is_number n v) eqn:Hn; cbn
  end.

Ltac fails_fast_done :=
  eexists; split; [rewrite <- ?app_assoc; cbn; reflexivity|];
  cbn; repeat split; auto;
  solve [ eexists; split; [left; reflexivity|reflexivity]
        | eexists; split; [right; left; reflexivity|reflexivity]
        | left; reflexivity
        | right; left; reflexivity ].

Lemma initialize_fails_fast (w : World E) :
  fails_fast [[yamlParse]] (package_initialize mixin) w.
Proof.
  unfold fails_fast, package_initialize, then_, BbPromise_bind, resolve, call.
  cbn. repeat run_call; fails_fast_done.
Qed.

Lemma compileFunctions_fails_fast (w : World E) :
  fails_fast [functions_order] (package_compileFunctions mixin) w.
Proof.
  unfold fails_fast, package_compileFunctions, then_, BbPromise_bind,
    resolve, call.
  cbn. repeat run_call; fails_fast_done.
Qed.

Lemma compileEvents_fails_fast (w : World E) :
  fails_fast [events_order; events_order_without_http]
    (package_compileEvents mixin) w.
Proof.
  unfold fails_fast, package_compileEvents, http_chain, then_,
    BbPromise_bind, BbPromise_resolve, resolve, call, eval, this,
    set_pluginhttpValidated, set_validated.
  cbn. repeat (first [run_glue | run_call]); fails_fast_done.
Qed.

Lemma Method_eqb_eq (a b : Method) : Method_eqb a b = true -> a = b.
Proof. destruct a, b; cbn; intros H; (reflexivity || discriminate H). Qed.

Lemma starts_with_firstn (l t : list Method) :
  starts_with l t = true -> l = firstn (length l) t.
Proof.
  revert t. induction l as [|a l IH]; intros [|b t] H; cbn in *;
    try reflexivity; try discriminate.
  apply andb_prop in H. destruct H as [Hab Hl].
  apply Method_eqb_eq in Hab. subst b. f_equal. apply IH, Hl.
Qed.

Lemma events_order_facts (l : list Method) :
  starts_with l events_order = true -> schedule_http_eventbus l.
Proof.
  intros H. apply starts_with_firstn in H.
  remember (length l) as n eqn:Hn. clear Hn.
  do 16 (try destruct n as [|n]); cbn in H; subst l;
    intros h Hh Hin; cbn in Hh, Hin;
    repeat match goal with
           | H : _ \/ _ |- _ => destruct H
           | H : False |- _ => destruct H
           | H : _ = _ |- _ => first [discriminate H | subst h]
           end;
    cbn; repeat split; auto;
    intros Hc; cbn in Hc;
    repeat match goal with
           | H : _ \/ _ |- _ => destruct H
           | H : False |- _ => destruct H
           | H : _ = _ |- _ => discriminate H
           end.
Qed.

Ltac settle_glue :=
  repeat match goal with
         | Hv : context [JS.get ?v ?k] |- context [JS.get ?v ?k] =>
             destruct (JS.get v k); cbn in Hv |- *; try discriminate Hv
         | Hv : context [JS.is_number ?n ?v] |- context [JS.is_number ?n ?v] =>
             destruct (JS.is_number n v); cbn in Hv |- *; try discriminate Hv
         end.


(** C6: in a run of the event hook where no HTTP-triggered event exists
    (the schedule compiler resolved and [httpValidate], on the plugin
    object it left, resolved with an empty event list), the hook goes
    straight on to the event-bus compiler, on the plugin object as
    [httpValidate] left it with the validation stored: its calls are
    schedule compiler, [httpValidate], event-bus compiler, and no
    compiler of the HTTP chain is among them, so nothing of the HTTP
    chain touches the template. *)
Theorem compileEvents_without_http (w : World E) (x v : Val)
  (p1 p2 : Plugin E) :
  mixin compileScheduledEvents VUndefined (plug w) = (Resolved x, p1) ->
  mixin httpValidate VUndefined p1 = (Resolved v, p2) ->
  no_http_events v = true ->
  package_compileEvents mixin w
  = call mixin compileCloudWatchEventEvents VUndefined (validated_world v p2 w)
  /\ exists t,
      trace (snd (package_compileEvents mixin w)) = (trace w ++ t)%list
      /\ called t = events_order_without_http
      /\ (forall h, In h http_order -> ~ In h (called t)).
Proof.
  intros Hs Hv Hn.
  assert (Hrun : package_compileEvents mixin w
                 = call mixin compileCloudWatchEventEvents VUndefined
                     (validated_world v p2 w)).
  { unfold package_compileEvents, http_chain, then_,
      BbPromise_bind, BbPromise_resolve, resolve, call, eval, this,
      set_pluginhttpValidated, set_validated, validated_world,
      with_validated.
    cbn. rewrite Hs. cbn. rewrite Hv. cbn.
    unfold no_http_events, events_length, and_then in Hn.
    settle_glue. rewrite <- app_assoc. reflexivity. }
  split; [exact Hrun|].
  rewrite Hrun. unfold call, validated_world. cbn.
  destruct (mixin compileCloudWatchEventEvents VUndefined (with_validated v p2))
    as [r p3]. cbn.
  exists [(compileScheduledEvents, true); (httpValidate, true);
          (compileCloudWatchEventEvents, resolved r)].
  split; [rewrite <- app_assoc; reflexivity|].
  split; [reflexivity|].
  intros h Hh Hin. cbn in Hh, Hin.
  repeat match goal with
         | H : _ \/ _ |- _ => destruct H
         | H : False |- _ => destruct H
         | H : _ = h |- _ => subst h
         | H : _ = _ |- _ => discriminate H
         end.
Qed.

Lemma reported_resolved (w w1 : World E) (result : Val) :
  reported mixin w = (Resolved result, w1) ->
  log w1 = log w /\ exitCode w1 = exitCode w
  /\ trace w1 = (trace w ++ requests)%list.
Proof.
  unfold reported, then_, BbPromise_bind, resolve, call. cbn.
  repeat run_call; intros H; inversion H; subst; cbn;
    rewrite <- ?app_assoc; auto.
Qed.

Lemma index_last (evs : list Val) (last : Val) :
  JS.index (evs ++ [last]) (Z.of_nat (length (evs ++ [last])) - 1) = last.
Proof.
  unfold JS.index. rewrite length_app. cbn [length].
  replace (Z.of_nat (length evs + 1) - 1)%Z with (Z.of_nat (length evs)) by lia.
  destruct (Z.ltb_spec (Z.of_nat (length evs)) 0); [lia|].
  rewrite Nat2Z.id, app_nth2, Nat.sub_diag by lia. reflexivity.
Qed.

Lemma invoke_after_report (w w1 : World E) (result : Val) :
  reported mixin w = (Resolved result, w1) ->
  invoke mixin executionHistory merge w
  = after_report executionHistory merge result w1.
Proof.
  intros Hrep. unfold invoke. fold (reported mixin).
  unfold then_ at 1. rewrite Hrep. reflexivity.
Qed.

(** C7: when [describeExecution] reports a status other than 'FAILED',
    [invoke] resolves, leaves the exit code as it was (so 0 stays 0),
    prints the result (after the empty line), and its calls are the
    three requests only: no execution history is fetched. *)
Theorem invoke_not_failed (w w1 : World E) (result status : Val) :
  reported mixin w = (Resolved result, w1) ->
  JS.get result "status" = Resolved status ->
  JS.is_string "FAILED" status = false ->
  let w' := snd (invoke mixin executionHistory merge w) in
  fst (invoke mixin executionHistory merge w) = Resolved VUndefined
  /\ exitCode w' = exitCode w
  /\ log w' = (log w ++ [VStr ""; result])%list
  /\ trace w' = (trace w ++ requests)%list
  /\ ~ In getExecutionHistory (called requests).
Proof.
  intros Hrep Hstatus Hnot.
  pose proof (@reported_resolved w w1 result Hrep) as [Hlog [Hexit Htrace]].
  cbv zeta. rewrite (@invoke_after_report w w1 result Hrep).
  unfold after_report, then_, logger_log, eval, BbPromise_resolve, resolve.
  cbn. rewrite Hstatus, Hnot. cbn.
  rewrite Hlog, Hexit, Htrace, <- app_assoc. cbn.
  repeat split; auto.
  intros [H|[H|[H|[]]]]; discriminate H.
Qed.

(** C1 (as amended): when [describeExecution] reports the status
    'FAILED', [invoke] fetches the execution history: the call follows
    the three requests, whatever its outcome; when that fetch resolves
    with at least one event and the last event is neither [null] nor
    [undefined], [invoke] prints the [executionFailedEventDetails] of
    the last event merged into the result and sets the exit code to
    1. *)
Theorem invoke_failed (w w1 : World E) (result status : Val) :
  reported mixin w = (Resolved result, w1) ->
  JS.get result "status" = Resolved status ->
  JS.is_string "FAILED" status = true ->
  let w' := snd (invoke mixin executionHistory merge w) in
  trace w'
  = (trace w ++ requests
       ++ [(getExecutionHistory, resolved (fst (executionHistory (plug w1))))])%list
  /\ forall (error : History) (p2 : Plugin E) (evs : list Val) (last : Val),
      executionHistory (plug w1) = (Resolved error, p2) ->
      events error = (evs ++ [last])%list ->
      JS.not_nullish last = true ->
      exists details,
        JS.get last "executionFailedEventDetails" = Resolved details
        /\ fst (invoke mixin executionHistory merge w) = Resolved VUndefined
        /\ log w' = (log w ++ [VStr ""; merge result details])%list
        /\ exitCode w' = 1%Z.
Proof.
  intros Hrep Hstatus Hfailed.
  pose proof (@reported_resolved w w1 result Hrep) as [Hlog [Hexit Htrace]].
  cbv zeta. rewrite (@invoke_after_report w w1 result Hrep).
  unfold after_report, then_, logger_log, eval, call_getExecutionHistory,
    set_exitCode, resolve.
  cbn. rewrite Hstatus, Hfailed. cbn.
  split.
  - destruct (executionHistory (plug w1)) as [[error|e] p2]; cbn.
    + match goal with
      | |- context [JS.get (JS.index ?l ?i) ?k] =>
          destruct (JS.get (JS.index l i) k)
      end; cbn; rewrite Htrace, <- !app_assoc; reflexivity.
    + rewrite Htrace, <- !app_assoc. reflexivity.
  - intros error p2 evs last Hhist Hevs Hlast.
    assert (Hdetails : exists details,
               JS.get last "executionFailedEventDetails" = Resolved details).
    { destruct last; try discriminate Hlast; cbn; eexists; reflexivity. }
    destruct Hdetails as [details Hdetails]. exists details.
    split; [exact Hdetails|].
    rewrite Hhist. cbn.
    rewrite Hevs, index_last, Hdetails. cbn.
    rewrite Hlog, <- app_assoc. cbn. auto.
Qed.


End IndexFacts.

(* ===================================================================== *)
(** * The display step *)
(* ===================================================================== *)

Lemma append_assoc (a b c : string) : (a ++ b) ++ c = a ++ (b ++ c).
Proof. induction a as [|x a IH]; cbn; [reflexivity|now rewrite IH]. Qed.

Lemma append_nil_r (a : string) : a ++ "" = a.
Proof. induction a as [|x a IH]; cbn; [reflexivity|now rewrite IH]. Qed.

Lemma text_app (l1 l2 : list string) : text (l1 ++ l2) = text l1 ++ text l2.
Proof.
  unfold text. induction l1 as [|x l1 IH]; cbn; [reflexivity|].
  now rewrite IH, append_assoc.
Qed.

Section DisplayFacts.

Variable E : Type.
Variable isStateMachines : Plugin E -> Res Val.
Variable getAllStateMachines : Plugin E -> Res (list Val).
Variable getStateMachine : Val -> Plugin E -> Res Val.
Variables slsRed grey yellow yellow_underline : string -> string.
Variable toUpperCase : string -> string.
Variable toString : Val -> string.

Lemma normalize_path_string (path : string) :
  normalize_path (VStr path) = Resolved (shown_path path).
Proof.
  unfold normalize_path, shown_path, segments. cbn.
  destruct (path =? "/"); reflexivity.
Qed.

Lemma event_message_bound (endpoint event http : Val) (m p : string) :
  bound_http event = Some http ->
  binding_of http = Some (m, p) ->
  event_message toUpperCase toString endpoint event
  = Resolved (endpoint_line toUpperCase (toString endpoint) m p).
Proof.
  unfold bound_http, event_message. intros Hb Hshape.
  destruct (JS.get event "http") as [h|e]; [|discriminate Hb]. cbn.
  destruct (JS.truthy h); [|discriminate Hb].
  inversion Hb; subst h; clear Hb.
  destruct http as [| | | |s|items|fields]; try discriminate Hshape.
  - cbn in Hshape. unfold method_and_path. cbn.
    destruct (JS.split " " s) as [|m' [|p' more]]; try discriminate Hshape.
    inversion Hshape; subst; clear Hshape. cbn.
    rewrite normalize_path_string. reflexivity.
  - cbn in Hshape. unfold method_and_path. cbn.
    destruct (JS.lookup "method" fields); try discriminate Hshape.
    destruct (JS.lookup "path" fields); try discriminate Hshape.
    inversion Hshape; subst; clear Hshape. cbn.
    rewrite normalize_path_string. reflexivity.
Qed.

Lemma event_message_well_formed (endpoint event : Val) :
  well_formed_event event = true ->
  event_message toUpperCase toString endpoint event
  = Resolved
      (text (map (line_of toUpperCase (toString endpoint))
               match bound_http event with
               | Some http => [http]
               | None => []
               end)).
Proof.
  intros Hwf.
  destruct (bound_http event) as [http|] eqn:Hb.
  - assert (Hshape : exists m p, binding_of http = Some (m, p)).
    { unfold well_formed_event, bound_http in *.
      destruct (JS.get event "http") as [h|e]; [|discriminate Hb].
      destruct (JS.truthy h); [|discriminate Hb].
      inversion Hb; subst h.
      destruct (binding_of http) as [[m p]|]; [|discriminate Hwf].
      now exists m, p. }
    destruct Hshape as [m [p Hshape]].
    rewrite (event_message_bound endpoint event http m p Hb Hshape).
    cbn. unfold line_of. rewrite Hshape, append_nil_r. reflexivity.
  - unfold well_formed_event, bound_http, event_message in *.
    destruct (JS.get event "http") as [h|e]; [|discriminate Hwf]. cbn.
    destruct (JS.truthy h); [discriminate Hb|reflexivity].
Qed.

Lemma forEach_event_well_formed (endpoint : Val) (evs : list Val) :
  forallb well_formed_event evs = true ->
  forall messages,
    forEach_event toUpperCase toString endpoint evs messages
    = Resolved
        (messages
         ++ text (map (line_of toUpperCase (toString endpoint))
                    (flat_map
                       (fun event =>
                          match bound_http event with
                          | Some http => [http]
                          | None => []
                          end) evs))).
Proof.
  induction evs as [|event more IH]; intros Hwf messages; cbn.
  - now rewrite append_nil_r.
  - cbn in Hwf. apply andb_prop in Hwf. destruct Hwf as [Hev Hmore].
    rewrite (event_message_well_formed endpoint event Hev). cbn.
    rewrite (IH Hmore), map_app, text_app, append_assoc. reflexivity.
Qed.

Lemma machine_messages_well_formed (p : Plugin E) (name obj : Val)
  (messages : string) :
  getStateMachine name p = Resolved obj ->
  well_formed_machine obj = true ->
  machine_messages getStateMachine toUpperCase toString p name messages
  = Resolved
      (messages
       ++ text (map (line_of toUpperCase (toString (endpointInfo p)))
                  (http_bindings [obj]))).
Proof.
  intros Hget Hwf. unfold machine_messages. rewrite Hget. cbn.
  unfold well_formed_machine in Hwf. apply andb_prop in Hwf.
  destruct Hwf as [Hobj Hevs].
  rewrite app_nil_r. unfold machine_events in *.
  destruct (JS.get obj "events") as [evs|e] eqn:Hev.
  - cbn. destruct evs; cbn; rewrite ?append_nil_r; try reflexivity.
    apply forEach_event_well_formed, Hevs.
  - destruct obj; cbn in Hobj, Hev; discriminate.
Qed.

Lemma forEach_machine_well_formed (p : Plugin E) (names machines : list Val) :
  Forall2 (fun name obj => getStateMachine name p = Resolved obj)
    names machines ->
  forallb well_formed_machine machines = true ->
  forall messages,
    forEach_machine getStateMachine toUpperCase toString p names messages
    = Resolved
        (messages
         ++ text (map (line_of toUpperCase (toString (endpointInfo p)))
                    (http_bindings machines))).
Proof.
  induction 1 as [|name obj names machines Hget Hrest IH];
    intros Hwf messages; cbn.
  - now rewrite append_nil_r.
  - cbn in Hwf. apply andb_prop in Hwf. destruct Hwf as [Hobj Hmore].
    rewrite (machine_messages_well_formed p name obj messages Hget Hobj). cbn.
    rewrite (IH Hmore), app_nil_r, map_app, text_app, append_assoc.
    reflexivity.
Qed.

Lemma http_bindings_shaped (machines : list Val) :
  forallb well_formed_machine machines = true ->
  forall http, In http (http_bindings machines) ->
    exists m p, binding_of http = Some (m, p).
Proof.
  intros Hwf http Hin. unfold http_bindings in Hin.
  apply in_flat_map in Hin. destruct Hin as [obj [Hobj Hin]].
  apply in_flat_map in Hin. destruct Hin as [event [Hev Hin]].
  rewrite forallb_forall in Hwf. specialize (Hwf obj Hobj).
  unfold well_formed_machine in Hwf. apply andb_prop in Hwf.
  destruct Hwf as [_ Hevs]. rewrite forallb_forall in Hevs.
  specialize (Hevs event Hev).
  unfold well_formed_event in Hevs. unfold bound_http in Hin.
  destruct (JS.get event "http") as [h|e]; [|destruct Hin].
  destruct (JS.truthy h); [|destruct Hin].
  destruct Hin as [Heq|[]]. subst h.
  destruct (binding_of http) as [[m p]|]; [|discriminate Hevs].
  now exists m, p.
Qed.

Lemma lines_empty (host : string) (https : list Val) :
  (forall http, In http https -> exists m p, binding_of http = Some (m, p)) ->
  (text (map (line_of toUpperCase host) https) =? "") = match https with
                                             | [] => true
                                             | _ :: _ => false
                                             end.
Proof.
  intros Hshape. destruct https as [|http more]; [reflexivity|].
  destruct (Hshape http (or_introl eq_refl)) as [m [p Hb]].
  cbn. unfold line_of. rewrite Hb. reflexivity.
Qed.

Lemma stateMachineMessages_well_formed (p : Plugin E) (machines : list Val) :
  configured isStateMachines getAllStateMachines getStateMachine p machines ->
  forallb well_formed_machine machines = true ->
  stateMachineMessages isStateMachines getAllStateMachines getStateMachine
    toUpperCase toString p
  = Resolved
      (text (map (line_of toUpperCase (toString (endpointInfo p)))
               (http_bindings machines))).
Proof.
  intros [some [Hsome Hconf]] Hwf.
  unfold stateMachineMessages. rewrite Hsome. cbn.
  destruct (JS.truthy some).
  - destruct Hconf as [names [Hnames Hall]]. rewrite Hnames. cbn.
    apply (forEach_machine_well_formed p names machines Hall Hwf "").
  - subst machines. reflexivity.
Qed.

Local Notation "'display_'" :=
  (display isStateMachines getAllStateMachines getStateMachine
     slsRed grey yellow yellow_underline toUpperCase toString).
Local Notation "'heading_'" :=
  (heading (E:=E) slsRed grey yellow yellow_underline).

Lemma display_well_formed (w : World E) (machines : list Val) :
  configured isStateMachines getAllStateMachines getStateMachine
    (plug w) machines ->
  forallb well_formed_machine machines = true ->
  let host := toString (endpointInfo (plug w)) in
  let message :=
    (heading_ (plug w)
       ++ text (map (line_of toUpperCase host) (http_bindings machines)))
      ++ String "010" "" in
  display_ w
  = match http_bindings machines with
    | [] => (Resolved (VStr ""), w)
    | _ :: _ => (Resolved (VStr message), logged message w)
    end.
Proof.
  intros Hconf Hwf host message.
  unfold display, then_, this, eval, logger_log, resolve. cbn.
  rewrite (stateMachineMessages_well_formed (plug w) machines Hconf Hwf).
  fold host.
  rewrite (lines_empty host _ (http_bindings_shaped machines Hwf)).
  destruct (http_bindings machines); reflexivity.
Qed.

(** C3: for a well-formed configuration the display step prints, after
    the heading, one line [<METHOD> - <endpoint-host><path>] for each
    Http-bound event of all the state machines, in order, and returns
    the text; without Http bindings it returns the empty string and
    logs nothing; for one state machine with the single http event
    [{path: 'orders', method: 'post'}] the line is
    [POST - <host>/orders]. *)
Theorem display_endpoints (w : World E) (machines : list Val) :
  configured isStateMachines getAllStateMachines getStateMachine
    (plug w) machines ->
  forallb well_formed_machine machines = true ->
  let host := toString (endpointInfo (plug w)) in
  let lines := map (line_of toUpperCase host) (http_bindings machines) in
  let message := (heading_ (plug w) ++ text lines) ++ String "010" "" in
  (forall http, In http (http_bindings machines) ->
     exists m p,
       binding_of http = Some (m, p)
       /\ line_of toUpperCase host http
          = String "010" "  " ++ toUpperCase m ++ " - " ++ host
              ++ shown_path p)
  /\ length lines = length (http_bindings machines)
  /\ (http_bindings machines = [] -> display_ w = (Resolved (VStr ""), w))
  /\ (http_bindings machines <> [] ->
      display_ w = (Resolved (VStr message), logged message w))
  /\ (machines = [order_flow] -> toUpperCase "post" = "POST" ->
      message
      = (heading_ (plug w) ++ String "010" "  POST - " ++ host ++ "/orders")
          ++ String "010" ""
      /\ display_ w = (Resolved (VStr message), logged message w)).
Proof.
  intros Hconf Hwf host lines message.
  pose proof (display_well_formed w machines Hconf Hwf) as Hd.
  cbv zeta in Hd. fold host in Hd. fold lines in Hd. fold message in Hd.
  split.
  { intros http Hin.
    destruct (http_bindings_shaped machines Hwf http Hin) as [m [p Hb]].
    exists m, p. split; [exact Hb|].
    unfold line_of. rewrite Hb. reflexivity. }
  split; [apply length_map|].
  split.
  { intros Hnone. rewrite Hnone in Hd. exact Hd. }
  split.
  { intros Hsome. destruct (http_bindings machines); [now destruct Hsome|exact Hd]. }
  intros Hflow Hpost. subst machines. split; [|exact Hd].
  unfold message, lines. cbn. unfold line_of, endpoint_line. cbn.
  rewrite Hpost, append_nil_r. reflexivity.
Qed.

End DisplayFacts.

(* ===================================================================== *)
(** * The two shapes of an http binding *)
(* ===================================================================== *)

Lemma split_not_nil (sep : ascii) (s : string) : JS.split sep s <> [].
Proof.
  induction s as [|c s IH]; cbn; [discriminate|].
  destruct (Ascii.eqb c sep); [discriminate|].
  destruct (JS.split sep s); [contradiction|discriminate].
Qed.

Lemma split_free (sep : ascii) (s : string) :
  forallb (free_of sep) (JS.split sep s) = true.
Proof.
  induction s as [|c s IH]; cbn; [reflexivity|].
  destruct (Ascii.eqb c sep) eqn:Hc; cbn; [exact IH|].
  destruct (JS.split sep s) as [|piece pieces]; cbn in *.
  - now rewrite Hc.
  - apply andb_prop in IH. destruct IH as [Hp Hps].
    unfold free_of in *. cbn. now rewrite Hc, Hp, Hps.
Qed.

Lemma split_free_piece (sep : ascii) (s : string) :
  free_of sep s = true -> JS.split sep s = [s].
Proof.
  induction s as [|c s IH]; cbn; [reflexivity|].
  unfold free_of. cbn. intros H. apply andb_prop in H. destruct H as [Hc Hs].
  apply negb_true_iff in Hc. rewrite Hc.
  unfold free_of in IH. now rewrite (IH Hs).
Qed.

Lemma split_append (sep : ascii) (a rest : string) :
  free_of sep a = true ->
  JS.split sep (a ++ String sep rest) = a :: JS.split sep rest.
Proof.
  induction a as [|c a IH]; cbn.
  - intros _. now rewrite Ascii.eqb_refl.
  - unfold free_of. cbn. intros H. apply andb_prop in H.
    destruct H as [Hc Ha]. apply negb_true_iff in Hc. rewrite Hc.
    unfold free_of in IH. now rewrite (IH Ha).
Qed.

(** Splitting what [join] made gives the pieces back. *)
Lemma split_join (sep : ascii) (pieces : list string) :
  pieces <> [] ->
  forallb (free_of sep) pieces = true ->
  JS.split sep (JS.join (String sep "") pieces) = pieces.
Proof.
  induction pieces as [|a more IH]; [contradiction|].
  intros _ Hfree. cbn in Hfree. apply andb_prop in Hfree.
  destruct Hfree as [Ha Hmore].
  destruct more as [|b more].
  - cbn. apply split_free_piece, Ha.
  - change (JS.join (String sep "") (a :: b :: more))
      with (a ++ String sep (JS.join (String sep "") (b :: more))).
    rewrite (split_append sep a _ Ha). f_equal.
    apply IH; [discriminate|exact Hmore].
Qed.

Lemma filter_proper (pieces : list string) :
  forallb (free_of "/") pieces = true ->
  forallb proper_segment (filter JS.nonempty pieces) = true.
Proof.
  induction pieces as [|piece pieces IH]; cbn; [reflexivity|].
  intros Hfree. apply andb_prop in Hfree. destruct Hfree as [Hp Hps].
  destruct (JS.nonempty piece) eqn:Hne; cbn; [|exact (IH Hps)].
  rewrite (IH Hps), andb_true_r.
  unfold proper_segment. now rewrite Hne, Hp.
Qed.

Lemma segments_proper (path : string) :
  forallb proper_segment (segments path) = true.
Proof. apply filter_proper, split_free. Qed.

Lemma segments_free (path : string) :
  forallb (free_of "/") (segments path) = true.
Proof.
  pose proof (segments_proper path) as H.
  induction (segments path) as [|seg segs IH]; cbn in *; [reflexivity|].
  apply andb_prop in H. destruct H as [Hseg Hsegs].
  unfold proper_segment in Hseg. apply andb_prop in Hseg.
  destruct Hseg as [_ Hfree]. now rewrite Hfree, (IH Hsegs).
Qed.

(** C10: the display step reads an http binding given as an object with
    the fields [method] and [path], or as one string whose first two
    space-separated tokens are the method and the path; in both cases
    the method is put in upper case (by the [toUpperCase] of the runtime)
    and the path is shown as the empty string when it is the root path
    ['/'], and else as one slash followed by its non-empty segments
    joined by slashes. *)
Theorem http_binding_shapes (toUpperCase : string -> string)
  (toString : Val -> string) (endpoint event http : Val) (m p : string) :
  JS.get event "http" = Resolved http ->
  (exists fields,
      http = VObj fields
      /\ JS.lookup "method" fields = VStr m
      /\ JS.lookup "path" fields = VStr p)
  \/ (exists s more, http = VStr s /\ JS.split " " s = m :: p :: more) ->
  method_and_path toUpperCase http = Resolved (toUpperCase m, VStr p)
  /\ normalize_path (VStr p) = Resolved (shown_path p)
  /\ shown_path "/" = ""
  /\ (p <> "/" ->
      shown_path p = "/" ++ JS.join "/" (segments p)
      /\ forallb proper_segment (segments p) = true
      /\ (segments p <> [] ->
          JS.split "/" (JS.join "/" (segments p)) = segments p))
  /\ event_message toUpperCase toString endpoint event
     = Resolved
         (String "010" "  " ++ toUpperCase m ++ " - "
            ++ toString endpoint ++ shown_path p).
Proof.
  intros Hget Hshape.
  assert (Hset : JS.truthy http = true).
  { destruct Hshape as [[fields [-> _]]|[s [more [-> Hs]]]]; [reflexivity|].
    destruct s; [discriminate Hs|reflexivity]. }
  split.
  { destruct Hshape as [[fields [-> [Hm Hp]]]|[s [more [-> Hs]]]];
      unfold method_and_path; cbn.
    - now rewrite Hm, Hp.
    - now rewrite Hs. }
  split; [unfold normalize_path, shown_path, segments; cbn;
          destruct (p =? "/"); reflexivity|].
  split; [reflexivity|].
  split.
  { intros Hroot. apply String.eqb_neq in Hroot.
    split; [unfold shown_path; now rewrite Hroot|].
    split; [apply segments_proper|].
    intros Hsome. apply (split_join "/" (segments p) Hsome), segments_free. }
  unfold event_message. rewrite Hget. cbn. rewrite Hset.
  destruct Hshape as [[fields [-> [Hm Hp]]]|[s [more [-> Hs]]]];
    unfold method_and_path; cbn.
  - rewrite Hm, Hp. cbn. unfold normalize_path, shown_path, segments. cbn.
    destruct (p =? "/"); reflexivity.
  - rewrite Hs. cbn. unfold normalize_path, shown_path, segments. cbn.
    destruct (p =? "/"); reflexivity.
Qed.

(* ===================================================================== *)
(** * The constructor *)
(* ===================================================================== *)

Section StageFacts.

Variable E : Type.
Variable mixin : Method -> Val -> Plugin E -> Res Val * Plugin E.
Hypothesis Hkeep : keeps_stage mixin.

Ltac run_call_keeping :=
  match goal with
  | |- context [mixin ?m ?a ?p] =>
      let r := fresh "r" in
      let p' := fresh "p" in
      let Hc := fresh "Hcall" in
      let Hk := fresh "Hkept" in
      pose proof (Hkeep m a p) as Hk;
      destruct (mixin m a p) as [r p'] eqn:Hc; cbn in Hk; destruct r; cbn
  end.

Ltac run_glue' :=
  match goal with
  | |- context [JS.get ?v ?k] => destruct (JS.get v k); cbn
  | |- context [JS.is_number ?n ?v] => destruct (JS.is_number n v); cbn
  end.

Lemma initialize_keeps_stage (w : World E) :
  stage (plug (snd (package_initialize mixin w))) = stage (plug w).
Proof.
  unfold package_initialize, then_, BbPromise_bind, resolve, call. cbn.
  repeat run_call_keeping; congruence.
Qed.

Lemma compileFunctions_keeps_stage (w : World E) :
  stage (plug (snd (package_compileFunctions mixin w))) = stage (plug w).
Proof.
  unfold package_compileFunctions, then_, BbPromise_bind, resolve, call. cbn.
  repeat run_call_keeping; congruence.
Qed.

Lemma compileEvents_keeps_stage (w : World E) :
  stage (plug (snd (package_compileEvents mixin w))) = stage (plug w).
Proof.
  unfold package_compileEvents, http_chain, then_,
    BbPromise_bind, BbPromise_resolve, resolve, call, eval, this,
    set_pluginhttpValidated, set_validated.
  cbn. repeat (first [run_glue' | run_call_keeping]); congruence.
Qed.

End StageFacts.

Lemma constructor_resolved (E : Type)
  (getProvider logger_config defineCustomProperties : E -> Res E)
  (sls opts v3 : Val) (host : E) (p : Plugin E) :
  constructor getProvider logger_config defineCustomProperties
    sls opts v3 host = Resolved p ->
  exists svc name provider reg given host',
    JS.get sls "service" = Resolved svc
    /\ JS.get svc "service" = Resolved name
    /\ JS.get svc "provider" = Resolved provider
    /\ JS.get provider "region" = Resolved reg
    /\ JS.get provider "stage" = Resolved given
    /\ p = {| serverless := sls;
              options := JS.or opts (VObj []);
              v3Api := v3;
              service := name;
              region := reg;
              stage := JS.or given (VStr "ap-southeast-2");
              pluginhttpValidated := VUndefined;
              validated := VUndefined;
              endpointInfo := VUndefined;
              rest := host' |}.
Proof.
  unfold constructor. intros Hp.
  destruct (JS.method_of sls "getProvider" "this.serverless.getProvider");
    [|discriminate Hp]. cbn in Hp.
  destruct (getProvider host) as [host1|]; [|discriminate Hp]. cbn in Hp.
  destruct (JS.get sls "service") as [svc|]; [|discriminate Hp].
  cbn in Hp.
  destruct (JS.get svc "service") as [name|] eqn:Hname; [|discriminate Hp].
  cbn in Hp.
  destruct (JS.get svc "provider") as [provider|] eqn:Hprov;
    [|discriminate Hp]. cbn in Hp.
  destruct (JS.get provider "region") as [reg|] eqn:Hreg; [|discriminate Hp].
  cbn in Hp.
  destruct (JS.get provider "stage") as [given|] eqn:Hgiven;
    [|discriminate Hp]. cbn in Hp.
  destruct (is_v4 sls) as [v4|]; [|discriminate Hp]. cbn in Hp.
  destruct (logger_config host1) as [host2|]; [|discriminate Hp]. cbn in Hp.
  assert (Hdone : exists host', p = {| serverless := sls;
              options := JS.or opts (VObj []);
              v3Api := v3;
              service := name;
              region := reg;
              stage := JS.or given (VStr "ap-southeast-2");
              pluginhttpValidated := VUndefined;
              validated := VUndefined;
              endpointInfo := VUndefined;
              rest := host' |}).
  { destruct v4; cbn in Hp.
    - destruct (JS.get sls "configSchemaHandler") as [handler|];
        [|discriminate Hp]. cbn in Hp.
      destruct (JS.method_of handler "defineCustomProperties" _);
        [|discriminate Hp]. cbn in Hp.
      destruct (defineCustomProperties host2) as [host3|];
        [|discriminate Hp]. cbn in Hp.
      inversion Hp. eexists; reflexivity.
    - inversion Hp. eexists; reflexivity. }
  destruct Hdone as [host' Hdone].
  exists svc, name, provider, reg, given, host'. repeat split; auto.
Qed.

Lemma constructor_stage (E : Type)
  (getProvider logger_config defineCustomProperties : E -> Res E)
  (serverless options v3Api : Val) (host : E)
  (p : Plugin E) (svc provider given : Val) :
  constructor getProvider logger_config defineCustomProperties
    serverless options v3Api host = Resolved p ->
  JS.get serverless "service" = Resolved svc ->
  JS.get svc "provider" = Resolved provider ->
  JS.get provider "stage" = Resolved given ->
  stage p = JS.or given (VStr "ap-southeast-2").
Proof.
  intros Hp Hsvc Hprov Hstage.
  destruct (constructor_resolved E getProvider logger_config
              defineCustomProperties serverless options v3Api host p Hp)
    as [svc' [name [provider' [reg [given' [host' H]]]]]].
  destruct H as [Hsvc' [_ [Hprov' [_ [Hstage' Hfields]]]]].
  rewrite Hsvc in Hsvc'. inversion Hsvc'; subst svc'.
  rewrite Hprov in Hprov'. inversion Hprov'; subst provider'.
  rewrite Hstage in Hstage'. inversion Hstage'; subst given'.
  subst p. reflexivity.
Qed.


(* ===================================================================== *)
(** * The scenarios, run *)
(* ===================================================================== *)

Section Scenarios.

Import Scenario.

Local Notation "'run_display'" :=
  (display isStateMachines getAllStateMachines getStateMachine
     plain plain plain plain toUpperCase toString).

(** Scenario C with the history at hand. *)
Lemma invoke_failed_witness :
  let w' := snd (invoke (mixin validated_none failed) history merge world) in
  trace w' = (trace world ++ requests ++ [(getExecutionHistory, true)])%list
  /\ exists details,
      JS.get
        (VObj [("type", VStr "ExecutionFailed");
               ("executionFailedEventDetails", failure_details)])
        "executionFailedEventDetails"
      = Resolved details
      /\ fst (invoke (mixin validated_none failed) history merge world)
         = Resolved VUndefined
      /\ log w' = (log world ++ [VStr ""; merge failed details])%list
      /\ exitCode w' = 1%Z.
Proof.
  pose proof
    (invoke_failed (list string) (mixin validated_none failed) history
       merge world
       {| plug := plugin; log := []; exitCode := 0; trace := requests |}
       failed (VStr "FAILED") eq_refl eq_refl eq_refl) as [Hfetched Hprinted].
  split; [exact Hfetched|].
  apply (Hprinted
           {| events :=
                [VObj [("type", VStr "ExecutionStarted")];
                 VObj [("type", VStr "ExecutionFailed");
                       ("executionFailedEventDetails", failure_details)]] |}
           plugin
           [VObj [("type", VStr "ExecutionStarted")]]
           (VObj [("type", VStr "ExecutionFailed");
                  ("executionFailedEventDetails", failure_details)]));
    reflexivity.
Defined.

Example invoke_scenario_C :
  invoke (mixin validated_none failed) history merge world
  = (Resolved VUndefined,
     {| plug := plugin;
        log := [VStr "";
                VObj [("name", VStr "run"); ("status", VStr "FAILED");
                      ("error", VStr "States.TaskFailed");
                      ("cause", VStr "out of stock")]];
        exitCode := 1;
        trace := [(getStateMachineArn, true); (startExecution, true);
                  (describeExecution, true); (getExecutionHistory, true)] |}).
Proof. reflexivity. Qed.

(** Scenario C with the history request failing: the execution is
    reported as failed, the history is asked for, and yet nothing but
    the empty line is printed and the exit code stays 0. *)
Lemma failed_execution_not_always_surfaced :
  ~ failed_execution_always_surfaced
      (mixin validated_none failed) history_unavailable merge.
Proof.
  intros Hall.
  specialize
    (Hall world
       {| plug := plugin; log := []; exitCode := 0; trace := requests |}
       failed eq_refl eq_refl).
  cbn in Hall. destruct Hall as [_ [_ Hexit]]. discriminate Hexit.
Qed.

(** The same run, spelled out. *)
Example invoke_history_unavailable :
  let w' := snd (invoke (mixin validated_none failed) history_unavailable
                   merge world) in
  fst (invoke (mixin validated_none failed) history_unavailable merge world)
  = Rejected (Failure (VStr "ThrottlingException"))
  /\ log w' = [VStr ""] /\ exitCode w' = 0%Z
  /\ called (trace w')
     = [getStateMachineArn; startExecution; describeExecution;
        getExecutionHistory].
Proof. cbn. repeat split; reflexivity. Qed.

(** A history without events: reading the details of its last event
    throws. *)
Example invoke_empty_history :
  let empty := fun p : Plugin (list string) =>
                 (Resolved {| events := [] |}, p) in
  let w' := snd (invoke (mixin validated_none failed) empty merge world) in
  resolved (fst (invoke (mixin validated_none failed) empty merge world))
  = false
  /\ log w' = [VStr ""] /\ exitCode w' = 0%Z.
Proof. cbn. repeat split; reflexivity. Qed.

(** An execution that succeeded. *)
Lemma invoke_not_failed_witness :
  let w' := snd (invoke (mixin validated_none succeeded) history merge world) in
  fst (invoke (mixin validated_none succeeded) history merge world)
  = Resolved VUndefined
  /\ exitCode w' = exitCode world
  /\ log w' = (log world ++ [VStr ""; succeeded])%list
  /\ trace w' = (trace world ++ requests)%list
  /\ ~ In getExecutionHistory (called requests).
Proof.
  apply (invoke_not_failed (list string) (mixin validated_none succeeded)
           history merge world
           {| plug := plugin; log := []; exitCode := 0; trace := requests |}
           succeeded (VStr "SUCCEEDED"));
    reflexivity.
Defined.



Example compileEvents_scenario_B :
  called
    (trace (snd (package_compileEvents (mixin validated_one failed) world)))
  = [compileScheduledEvents; httpValidate; compileRestApi;
     compileResources; compileMethods; compileRequestValidators;
     compileAuthorizers; compileHttpLambdaPermissions; compileCors;
     compileHttpIamRole; compileDeployment; compileApiKeys;
     compileUsagePlan; compileUsagePlanKeys;
     compileCloudWatchEventEvents].
Proof. reflexivity. Qed.

(** Scenario A: the event hook without http events. *)
Lemma compileEvents_without_http_witness :
  package_compileEvents (mixin validated_none failed) world
  = call (mixin validated_none failed) compileCloudWatchEventEvents VUndefined
      (validated_world validated_none (emit compileScheduledEvents plugin)
         world)
  /\ exists t,
      trace (snd (package_compileEvents (mixin validated_none failed) world))
      = (trace world ++ t)%list
      /\ called t = events_order_without_http
      /\ (forall h, In h http_order -> ~ In h (called t)).
Proof.
  apply (compileEvents_without_http (list string)
           (mixin validated_none failed) world VUndefined validated_none
           (emit compileScheduledEvents plugin)
           (emit compileScheduledEvents plugin));
    reflexivity.
Defined.

Example compileEvents_scenario_A :
  rest (plug (snd (package_compileEvents (mixin validated_none failed) world)))
  = []
  /\ rest (plug (snd (package_compileFunctions (mixin validated_none failed)
                        world)))
     = ["OrderFlowRole"; "OrderFlow"].
Proof. split; reflexivity. Qed.

(** Scenario B: the display step. *)
Lemma display_endpoints_witness :
  let host := toString (endpointInfo (plug world)) in
  let lines := map (line_of toUpperCase host) (http_bindings [order_flow]) in
  let message :=
    (heading plain plain plain plain (plug world) ++ text lines)
      ++ String "010" "" in
  (forall http, In http (http_bindings [order_flow]) ->
     exists m p,
       binding_of http = Some (m, p)
       /\ line_of toUpperCase host http
          = String "010" "  " ++ toUpperCase m ++ " - " ++ host
              ++ shown_path p)
  /\ length lines = length (http_bindings [order_flow])
  /\ (http_bindings [order_flow] = [] ->
      run_display world = (Resolved (VStr ""), world))
  /\ (http_bindings [order_flow] <> [] ->
      run_display world = (Resolved (VStr message), logged message world))
  /\ ([order_flow] = [order_flow] -> toUpperCase "post" = "POST" ->
      message
      = (heading plain plain plain plain (plug world)
           ++ String "010" "  POST - " ++ host ++ "/orders")
          ++ String "010" ""
      /\ run_display world = (Resolved (VStr message), logged message world)).
Proof.
  apply (display_endpoints (list string) isStateMachines getAllStateMachines
           getStateMachine plain plain plain plain toUpperCase toString
           world [order_flow]).
  - exists (VBool true). split; [reflexivity|]. cbn.
    exists [VStr "OrderFlow"]. split; [reflexivity|].
    constructor; [reflexivity|constructor].
  - reflexivity.
Defined.

Example display_scenario_B :
  fst (run_display world)
  = Resolved
      (VStr
         (String "010" "✔ Serverless StepFunctions Outputs"
            ++ String "010" "endpoints:"
            ++ String "010" "  POST - " ++ endpoint ++ "/orders"
            ++ String "010" "")).
Proof. reflexivity. Qed.

(** A configuration whose state machines have no events: nothing is
    shown, nothing is logged. *)
Example display_scenario_A :
  display isStateMachines getAllStateMachines
    (fun _ _ => Resolved (VObj [("name", VStr "OrderFlow")]))
    plain plain plain plain toUpperCase toString world
  = (Resolved (VStr ""), world).
Proof. reflexivity. Qed.


Example constructor_given_stage :
  and_then
    (constructor (fun h => Resolved h) (fun h => Resolved h)
       (fun h => Resolved h)
       (VObj [("service",
               VObj [("service", VStr "orders");
                     ("provider", VObj [("stage", VStr "prod")])])])
       VUndefined VUndefined tt)
    (fun p => Resolved (stage p, region p, options p))
  = Resolved (VStr "prod", VUndefined, VObj []).
Proof. reflexivity. Qed.

(** The two shapes of the http binding of scenario B. *)
Lemma http_binding_shapes_witness :
  event_message toUpperCase toString (VStr endpoint) post_orders
  = Resolved (String "010" "  POST - " ++ endpoint ++ "/orders")
  /\ event_message toUpperCase toString (VStr endpoint)
       (VObj [("http", VStr "post /orders//{id}/")])
     = Resolved (String "010" "  POST - " ++ endpoint ++ "/orders/{id}").
Proof.
  split.
  - apply (http_binding_shapes toUpperCase toString (VStr endpoint) post_orders
             (VObj [("path", VStr "orders"); ("method", VStr "post")])
             "post" "orders" eq_refl).
    left. exists [("path", VStr "orders"); ("method", VStr "post")].
    repeat split; reflexivity.
  - apply (http_binding_shapes toUpperCase toString (VStr endpoint)
             (VObj [("http", VStr "post /orders//{id}/")])
             (VStr "post /orders//{id}/") "post" "/orders//{id}/" eq_refl).
    right. exists "post /orders//{id}/", []. split; reflexivity.
Defined.

(** A run of the function hook whose third compiler rejects. *)
Example compileFunctions_activities_rejected :
  let failing :=
    fun m arg p =>
      match m with
      | compileActivities =>
          (Rejected (Failure (VStr "activities property is not an array")), p)
      | _ => mixin validated_none failed m arg p
      end in
  package_compileFunctions failing world
  = (Rejected (Failure (VStr "activities property is not an array")),
     {| plug := emit compileStateMachines (emit compileIamRole plugin);
        log := []; exitCode := 0;
        trace := [(compileIamRole, true); (compileStateMachines, true);
                  (compileActivities, false)] |}).
Proof. reflexivity. Qed.

End Scenarios.

(* ===================================================================== *)
(** * invoke: the runs that do not end well *)
(* ===================================================================== *)

Section InvokeFacts.

Variable E : Type.
Variable mixin : Method -> Val -> Plugin E -> Res Val * Plugin E.
Variable executionHistory : Plugin E -> Res History * Plugin E.
Variable merge : Val -> Val -> Val.

Ltac step_call :=
  match goal with
  | |- context [mixin ?m ?a ?p] =>
      let r := fresh "r" in
      let p' := fresh "p" in
      let Hc := fresh "Hcall" in
      destruct (mixin m a p) as [r p'] eqn:Hc; destruct r; cbn
  end.

Local Notation "'run_invoke'" := (invoke mixin executionHistory merge).

(** X1: when one of the three requests (getStateMachineArn,
    startExecution, describeExecution) rejects, [invoke] rejects with the
    same error in the same world: nothing is printed, the exit code is
    left alone, the requests after the rejected one are not made and no
    history is fetched. *)
Theorem invoke_request_rejected (w w1 : World E) (e : Err) :
  reported mixin w = (Rejected e, w1) ->
  run_invoke w = (Rejected e, w1)
  /\ log w1 = log w
  /\ exitCode w1 = exitCode w
  /\ exists t,
      trace w1 = (trace w ++ t)%list
      /\ starts_with (called t) (called requests) = true
      /\ stops_at_first_failure t = true
      /\ forallb snd t = false
      /\ ~ In getExecutionHistory (called t).
Proof.
  intros Hrep. split.
  { unfold invoke. fold (reported mixin). unfold then_ at 1.
    rewrite Hrep. reflexivity. }
  revert Hrep.
  unfold reported, then_, BbPromise_bind, resolve, call. cbn.
  repeat step_call; intros H; inversion H; subst; cbn;
    (split; [reflexivity|]); (split; [reflexivity|]);
    eexists; (split; [rewrite <- ?app_assoc; cbn; reflexivity|]);
    cbn; repeat split; auto;
    intros Hin;
    repeat match goal with
           | H : _ \/ _ |- _ => destruct H
           | H : False |- _ => destruct H
           | H : _ = getExecutionHistory |- _ => discriminate H
           end.
Qed.

Ltac step_history :=
  match goal with
  | |- context [executionHistory ?p] =>
      let r := fresh "r" in
      let p' := fresh "p" in
      destruct (executionHistory p) as [r p']; destruct r; cbn
  end.

Ltac step_glue :=
  match goal with
  | |- context [JS.get ?v ?k] => destruct (JS.get v k); cbn
  | |- context [JS.is_string ?l ?v] => destruct (JS.is_string l v); cbn
  end.

(** X2: [invoke] resolves with [undefined] only, and a run that rejects
    leaves the exit code as it was; the exit code is changed in one kind
    of run alone, to 1: the requests and the history fetch all resolved
    and the run itself resolves. *)
Theorem invoke_exit_code (w : World E) :
  let w' := snd (run_invoke w) in
  match fst (run_invoke w) with
  | Resolved v =>
      v = VUndefined
      /\ (exitCode w' = exitCode w
          \/ exitCode w' = 1%Z
             /\ trace w'
                = (trace w ++ requests ++ [(getExecutionHistory, true)])%list)
  | Rejected _ => exitCode w' = exitCode w
  end.
Proof.
  unfold invoke, after_report, then_, BbPromise_bind, BbPromise_resolve,
    resolve, call, call_getExecutionHistory, logger_log, set_exitCode, eval.
  cbn.
  repeat first [step_call | step_history | step_glue];
    try reflexivity; split; try reflexivity;
    first [ left; reflexivity
          | right; split; [reflexivity|];
            rewrite <- ?app_assoc; reflexivity ].
Qed.

(** X3: when [describeExecution] resolves with [null] or [undefined],
    [invoke] prints the empty line and then rejects with a TypeError
    (reading [status]); the exit code is left alone and no history is
    fetched. *)
Theorem invoke_nullish_result (w w1 : World E) (result : Val) :
  reported mixin w = (Resolved result, w1) ->
  JS.not_nullish result = false ->
  let w' := snd (run_invoke w) in
  (exists msg, fst (run_invoke w) = Rejected (TypeError msg))
  /\ log w' = (log w ++ [VStr ""])%list
  /\ exitCode w' = exitCode w
  /\ trace w' = (trace w ++ requests)%list.
Proof.
  intros Hrep Hnull.
  pose proof (reported_resolved E mixin w w1 result Hrep)
    as [Hlog [Hexit Htrace]].
  cbv zeta.
  rewrite (invoke_after_report E mixin executionHistory merge w w1 result Hrep).
  unfold after_report, then_, logger_log, eval. cbn.
  destruct result; try discriminate Hnull; cbn;
    rewrite Hlog, Hexit, Htrace; (split; [eexists; reflexivity|auto]).
Qed.

(** X4: when the execution is reported 'FAILED' and the history request
    rejects, [invoke] rejects with the error of that request: the empty
    line is all that was printed and the exit code is left alone. *)
Theorem invoke_history_rejected (w w1 : World E) (result status : Val)
  (e : Err) (p2 : Plugin E) :
  reported mixin w = (Resolved result, w1) ->
  JS.get result "status" = Resolved status ->
  JS.is_string "FAILED" status = true ->
  executionHistory (plug w1) = (Rejected e, p2) ->
  run_invoke w
  = (Rejected e,
     {| plug := p2;
        log := log w ++ [VStr ""];
        exitCode := exitCode w;
        trace := trace w ++ requests ++ [(getExecutionHistory, false)] |}).
Proof.
  intros Hrep Hstatus Hfailed Hhist.
  pose proof (reported_resolved E mixin w w1 result Hrep)
    as [Hlog [Hexit Htrace]].
  rewrite (invoke_after_report E mixin executionHistory merge w w1 result Hrep).
  unfold after_report, then_, logger_log, eval, call_getExecutionHistory. cbn.
  rewrite Hstatus, Hfailed. cbn. rewrite Hhist. cbn.
  rewrite Hlog, Hexit, Htrace, <- app_assoc. reflexivity.
Qed.

(** X5: when the execution is reported 'FAILED' and the history holds no
    event, or its last event is [null] or [undefined], [invoke] rejects
    with a TypeError (reading [executionFailedEventDetails]) after the
    fetch: the empty line is all that was printed and the exit code is
    left alone. *)
Theorem invoke_history_without_last_event (w w1 : World E)
  (result status : Val) (error : History) (p2 : Plugin E) :
  reported mixin w = (Resolved result, w1) ->
  JS.get result "status" = Resolved status ->
  JS.is_string "FAILED" status = true ->
  executionHistory (plug w1) = (Resolved error, p2) ->
  events error = []
  \/ (exists evs last,
        events error = (evs ++ [last])%list /\ JS.not_nullish last = false) ->
  let w' := snd (run_invoke w) in
  (exists msg, fst (run_invoke w) = Rejected (TypeError msg))
  /\ log w' = (log w ++ [VStr ""])%list
  /\ exitCode w' = exitCode w
  /\ trace w' = (trace w ++ requests ++ [(getExecutionHistory, true)])%list.
Proof.
  intros Hrep Hstatus Hfailed Hhist Hlast.
  pose proof (reported_resolved E mixin w w1 result Hrep)
    as [Hlog [Hexit Htrace]].
  cbv zeta.
  rewrite (invoke_after_report E mixin executionHistory merge w w1 result Hrep).
  unfold after_report, then_, logger_log, eval, call_getExecutionHistory. cbn.
  rewrite Hstatus, Hfailed. cbn. rewrite Hhist. cbn.
  assert (Hthrow : exists msg,
             JS.get
               (JS.index (events error)
                  (Z.of_nat (length (events error)) - 1))
               "executionFailedEventDetails"
             = Rejected (TypeError msg)).
  { destruct Hlast as [Hnone|[evs [last [Hevs Hnull]]]].
    - rewrite Hnone. cbn. eexists; reflexivity.
    - rewrite Hevs, index_last.
      destruct last; try discriminate Hnull; cbn; eexists; reflexivity. }
  destruct Hthrow as [msg Hthrow]. rewrite Hthrow. cbn.
  rewrite Hlog, Hexit, Htrace, <- app_assoc.
  split; [exists msg; reflexivity|auto].
Qed.

Lemma skipn_length_app (A : Type) (l t : list A) :
  skipn (length l) (l ++ t) = t.
Proof. induction l as [|a l IH]; cbn; [reflexivity|exact IH]. Qed.

(** X6: the [invoke:stepf:invoke] hook fails fast: it calls [yamlParse],
    then the three requests, then the history; a call that rejects is
    the last one made, and a run that resolves made all the calls of one
    of the two orders, each resolving.  The history is fetched in
    exactly the runs where [yamlParse] and the three requests resolved
    and the status of the result is 'FAILED'. *)
Theorem invoke_hook_fails_fast (w : World E) :
  fails_fast [invoke_order; invoke_order_failed]
    (invoke_stepf_invoke mixin executionHistory merge) w
  /\ existsb (Method_eqb getExecutionHistory)
       (called
          (made w (snd (invoke_stepf_invoke mixin executionHistory merge w))))
     = match mixin yamlParse VUndefined (plug w) with
       | (Resolved _, p1) =>
           match reported mixin (after_call yamlParse true p1 w) with
           | (Resolved result, _) => status_failed result
           | (Rejected _, _) => false
           end
       | (Rejected _, _) => false
       end.
Proof.
  split.
  - unfold fails_fast, invoke_stepf_invoke, invoke, after_report, then_,
      BbPromise_bind, BbPromise_resolve, resolve, call,
      call_getExecutionHistory, logger_log, set_exitCode, eval.
    cbn.
    repeat first [step_call | step_history | step_glue];
      (eexists; split; [rewrite <- ?app_assoc; cbn; reflexivity|]);
      cbn; repeat split; auto;
      solve [ eexists; split; [left; reflexivity|reflexivity]
            | eexists; split; [right; left; reflexivity|reflexivity]
            | left; reflexivity
            | right; left; reflexivity ].
  - unfold made, status_failed, after_call, reported, invoke_stepf_invoke,
      invoke, after_report, then_,
      BbPromise_bind, BbPromise_resolve, resolve, call,
      call_getExecutionHistory, logger_log, set_exitCode, eval.
    cbn.
    repeat first [step_call | step_history | step_glue];
      rewrite <- ?app_assoc; rewrite skipn_length_app; reflexivity.
Qed.

End InvokeFacts.

(* ===================================================================== *)
(** * display: where it throws, and what it logs *)
(* ===================================================================== *)

Lemma event_message_outcome (toUpperCase : string -> string)
  (toString : Val -> string) (endpoint event : Val) :
  match event_message toUpperCase toString endpoint event with
  | Resolved _ => well_formed_event event = true
  | Rejected e =>
      well_formed_event event = false /\ exists msg, e = TypeError msg
  end.
Proof.
  unfold event_message, well_formed_event.
  destruct (JS.get event "http") as [http|e] eqn:Hget; cbn.
  2:{ split; [reflexivity|].
      destruct event; cbn in Hget; inversion Hget; eexists; reflexivity. }
  destruct (JS.truthy http) eqn:Hset; cbn; [|reflexivity].
  destruct http as [| |b|n|s|items|fields]; try discriminate Hset;
    unfold method_and_path; cbn.
  - split; [reflexivity|eexists; reflexivity].
  - split; [reflexivity|eexists; reflexivity].
  - destruct (JS.split " " s) as [|m [|p more]]; cbn.
    + split; [reflexivity|eexists; reflexivity].
    + split; [reflexivity|eexists; reflexivity].
    + unfold normalize_path. cbn. destruct (p =? "/"); reflexivity.
  - split; [reflexivity|eexists; reflexivity].
  - destruct (JS.lookup "method" fields); cbn;
      try (split; [reflexivity|eexists; reflexivity]).
    destruct (JS.lookup "path" fields); cbn;
      try (split; [reflexivity|eexists; reflexivity]).
    unfold normalize_path. cbn. destruct (s0 =? "/"); reflexivity.
Qed.

Lemma forEach_event_resolved (toUpperCase : string -> string)
  (toString : Val -> string) (endpoint : Val) (evs : list Val) :
  forall messages,
    resolved (forEach_event toUpperCase toString endpoint evs messages)
    = forallb well_formed_event evs.
Proof.
  induction evs as [|event more IH]; intros messages; cbn; [reflexivity|].
  pose proof (event_message_outcome toUpperCase toString endpoint event) as Hev.
  destruct (event_message toUpperCase toString endpoint event) as [added|e]; cbn.
  - rewrite Hev. apply IH.
  - destruct Hev as [Hev _]. now rewrite Hev.
Qed.

Section DisplayOutcomes.

Variable E : Type.
Variable mixin : Method -> Val -> Plugin E -> Res Val * Plugin E.
Variable isStateMachines : Plugin E -> Res Val.
Variable getAllStateMachines : Plugin E -> Res (list Val).
Variable getStateMachine : Val -> Plugin E -> Res Val.
Variables slsRed grey yellow yellow_underline : string -> string.
Variable toUpperCase : string -> string.
Variable toString : Val -> string.

Local Notation "'display_'" :=
  (display isStateMachines getAllStateMachines getStateMachine
     slsRed grey yellow yellow_underline toUpperCase toString).
Local Notation "'heading_'" :=
  (heading (E:=E) slsRed grey yellow yellow_underline).

Lemma machine_messages_resolved (p : Plugin E) (name obj : Val)
  (messages : string) :
  getStateMachine name p = Resolved obj ->
  resolved (machine_messages getStateMachine toUpperCase toString p name messages)
  = well_formed_machine obj.
Proof.
  intros Hget. unfold machine_messages, well_formed_machine, machine_events.
  rewrite Hget. cbn.
  destruct obj as [| |b|n|s|items|fields]; cbn; try reflexivity.
  destruct (JS.lookup "events" fields); cbn; try reflexivity.
  apply forEach_event_resolved.
Qed.

Lemma forEach_machine_resolved (p : Plugin E) (names machines : list Val) :
  Forall2 (fun name obj => getStateMachine name p = Resolved obj)
    names machines ->
  forall messages,
    resolved (forEach_machine getStateMachine toUpperCase toString p names messages)
    = forallb well_formed_machine machines.
Proof.
  induction 1 as [|name obj names machines Hget Hrest IH];
    intros messages; cbn; [reflexivity|].
  pose proof (machine_messages_resolved p name obj messages Hget) as Hm.
  destruct (machine_messages getStateMachine toUpperCase toString p name
              messages) as [m|e]; cbn in *.
  - rewrite <- Hm. apply IH.
  - now rewrite <- Hm.
Qed.

(** X7: an event is shown without a throw exactly when it is neither
    [null] nor [undefined] and its http binding, if set, has one of the
    two shapes (an object with string [method] and [path], or a string
    of at least two space-separated tokens); every other event makes the
    callback throw a TypeError. *)
Theorem event_message_resolves_iff (endpoint event : Val) :
  resolved (event_message toUpperCase toString endpoint event)
  = well_formed_event event
  /\ match event_message toUpperCase toString endpoint event with
     | Resolved line =>
         line = text (map (line_of toUpperCase (toString endpoint))
                        match bound_http event with
                        | Some http => [http]
                        | None => []
                        end)
     | Rejected e => exists msg, e = TypeError msg
     end.
Proof.
  pose proof (event_message_outcome toUpperCase toString endpoint event) as Hout.
  destruct (event_message toUpperCase toString endpoint event) as [line|e] eqn:Hev; cbn.
  - split; [now rewrite Hout|].
    rewrite (event_message_well_formed toUpperCase toString endpoint event Hout)
      in Hev.
    now inversion Hev.
  - destruct Hout as [Hwf Hmsg]. split; [now rewrite Hwf|exact Hmsg].
Qed.

(** X8: over the state machines of the configuration, the display step
    resolves exactly when every state machine is an object or a scalar
    whose events (if an array) are all shown without a throw; one
    malformed event anywhere makes the whole step reject. *)
Theorem display_resolves_iff (w : World E) (machines : list Val) :
  configured isStateMachines getAllStateMachines getStateMachine
    (plug w) machines ->
  resolved (fst (display_ w)) = forallb well_formed_machine machines.
Proof.
  intros [some [Hsome Hconf]].
  unfold display, then_, this, eval, logger_log, resolve. cbn.
  unfold stateMachineMessages. rewrite Hsome. cbn.
  destruct (JS.truthy some).
  - destruct Hconf as [names [Hnames Hall]]. rewrite Hnames. cbn.
    rewrite <- (forEach_machine_resolved (plug w) names machines Hall "").
    destruct (forEach_machine getStateMachine toUpperCase toString (plug w)
                names "") as [m|e];
      cbn; [destruct (m =? ""); reflexivity|reflexivity].
  - subst machines. reflexivity.
Qed.

(** X9: whatever the configuration, the display step either leaves the
    world as it was (when it throws, and when it returns the empty
    string) or logs exactly one message, the non-empty text it returns:
    the heading, the endpoint lines and a final newline.  Lines gathered
    before a throw are never printed. *)
Theorem display_logs_what_it_returns (w : World E) :
  match fst (display_ w) with
  | Rejected _ => snd (display_ w) = w
  | Resolved v =>
      exists message,
        v = VStr message
        /\ snd (display_ w)
           = (if message =? "" then w else logged message w)
        /\ (if message =? "" then True
            else exists lines,
                (lines =? "") = false
                /\ message = (heading_ (plug w) ++ lines) ++ String "010" "")
  end.
Proof.
  unfold display, then_, this, eval, logger_log, resolve. cbn.
  destruct (stateMachineMessages isStateMachines getAllStateMachines
              getStateMachine toUpperCase toString (plug w)) as [lines|e]; cbn;
    [|destruct w; reflexivity].
  destruct (lines =? "") eqn:Hnone; cbn.
  - exists "". cbn. repeat split; destruct w; reflexivity.
  - eexists. split; [reflexivity|].
    assert (Hmsg : ((heading_ (plug w) ++ lines) ++ String "010" "" =? "")
                   = false).
    { apply String.eqb_neq. intros Heq.
      destruct (heading_ (plug w) ++ lines); discriminate Heq. }
    rewrite Hmsg. split; [reflexivity|].
    exists lines. split; [exact Hnone|reflexivity].
Qed.

(** X10: the [after:deploy:deploy] hook shows the endpoint that
    [getEndpointInfo] stored during this very run: when that call
    resolves and leaves a well-formed configuration, the hook returns
    and logs the lines built from the endpoint of the plugin object as
    the call left it, or returns the empty string without logging when
    there is no Http binding. *)
Theorem after_deploy_shows_stored_endpoint (w : World E) (v : Val)
  (p' : Plugin E) (machines : list Val) :
  mixin getEndpointInfo VUndefined (plug w) = (Resolved v, p') ->
  configured isStateMachines getAllStateMachines getStateMachine p' machines ->
  forallb well_formed_machine machines = true ->
  let w1 := after_call getEndpointInfo true p' w in
  let host := toString (endpointInfo p') in
  let message :=
    (heading_ p'
       ++ text (map (line_of toUpperCase host) (http_bindings machines)))
      ++ String "010" "" in
  after_deploy_deploy mixin isStateMachines getAllStateMachines
    getStateMachine slsRed grey yellow yellow_underline
    toUpperCase toString w
  = match http_bindings machines with
    | [] => (Resolved (VStr ""), w1)
    | _ :: _ => (Resolved (VStr message), logged message w1)
    end.
Proof.
  intros Hcall Hconf Hwf w1 host message.
  unfold after_deploy_deploy, then_, BbPromise_bind, resolve, call. cbn.
  rewrite Hcall. cbn.
  apply (display_well_formed E isStateMachines getAllStateMachines
           getStateMachine slsRed grey yellow yellow_underline
           toUpperCase toString w1 machines Hconf Hwf).
Qed.

End DisplayOutcomes.

(* ===================================================================== *)
(** * The path as shown *)
(* ===================================================================== *)

Lemma filter_proper_id (segs : list string) :
  forallb proper_segment segs = true -> filter JS.nonempty segs = segs.
Proof.
  induction segs as [|seg segs IH]; cbn; [reflexivity|].
  intros H. apply andb_prop in H. destruct H as [Hseg Hsegs].
  unfold proper_segment in Hseg. apply andb_prop in Hseg.
  destruct Hseg as [Hne _]. rewrite Hne. f_equal. apply IH, Hsegs.
Qed.

Lemma join_proper_nonempty (segs : list string) :
  segs <> [] -> forallb proper_segment segs = true ->
  JS.join "/" segs <> "".
Proof.
  destruct segs as [|seg segs]; [contradiction|].
  intros _ H. cbn in H. apply andb_prop in H. destruct H as [Hseg _].
  unfold proper_segment, JS.nonempty in Hseg. apply andb_prop in Hseg.
  destruct Hseg as [Hne _].
  destruct seg as [|c seg]; [discriminate Hne|].
  destruct segs; cbn; discriminate.
Qed.

Lemma segments_of_shown (segs : list string) :
  segs <> [] -> forallb proper_segment segs = true ->
  segments ("/" ++ JS.join "/" segs) = segs.
Proof.
  intros Hsome Hproper. unfold segments.
  change ("/" ++ JS.join "/" segs) with (String "/" (JS.join "/" segs)).
  cbn [JS.split]. rewrite Ascii.eqb_refl. cbn [filter JS.nonempty].
  change (negb ("" =? "")) with false. cbn iota.
  assert (Hfree : forallb (free_of "/") segs = true).
  { clear Hsome. induction segs as [|seg segs IH]; cbn in *; [reflexivity|].
    apply andb_prop in Hproper. destruct Hproper as [Hseg Hsegs].
    unfold proper_segment in Hseg. apply andb_prop in Hseg.
    destruct Hseg as [_ Hfree]. now rewrite Hfree, (IH Hsegs). }
  rewrite (split_join "/" segs Hsome Hfree).
  apply filter_proper_id, Hproper.
Qed.

(** X11: showing a path is stable: for a path with at least one
    non-empty segment, the shown path has exactly the segments of the
    path, and showing it again changes nothing; so leading, trailing and
    doubled slashes never survive, and none is added by a second pass. *)
Theorem shown_path_idempotent (path : string) :
  segments path <> [] ->
  segments (shown_path path) = segments path
  /\ shown_path (shown_path path) = shown_path path.
Proof.
  intros Hsome.
  pose proof (segments_proper path) as Hproper.
  assert (Hroot : (path =? "/") = false).
  { destruct (path =? "/") eqn:Hp; [|reflexivity].
    apply String.eqb_eq in Hp. subst path. now destruct Hsome. }
  assert (Hshown : shown_path path = "/" ++ JS.join "/" (segments path)).
  { unfold shown_path. now rewrite Hroot. }
  rewrite Hshown.
  pose proof (segments_of_shown (segments path) Hsome Hproper) as Hsegs.
  split; [exact Hsegs|].
  unfold shown_path.
  assert (Hnot : ("/" ++ JS.join "/" (segments path) =? "/") = false).
  { apply String.eqb_neq. intros Heq.
    apply (join_proper_nonempty (segments path) Hsome Hproper).
    change ("/" ++ JS.join "/" (segments path))
      with (String "/" (JS.join "/" (segments path))) in Heq.
    injection Heq as Hj. exact Hj. }
  rewrite Hnot, Hsegs. reflexivity.
Qed.

Lemma segments_slash (path : string) :
  segments (String "/" path) = segments path.
Proof. unfold segments. cbn. reflexivity. Qed.

Lemma segments_none_iff (path : string) :
  only_slashes path = match segments path with
                      | [] => true
                      | _ :: _ => false
                      end.
Proof.
  induction path as [|c path IH]; [reflexivity|].
  unfold only_slashes. cbn [all_chars].
  destruct (Ascii.eqb c "/") eqn:Hc.
  - apply Ascii.eqb_eq in Hc. subst c. rewrite segments_slash. exact IH.
  - unfold segments. cbn [JS.split]. rewrite Hc.
    destruct (JS.split "/" path); reflexivity.
Qed.

(** X12: a path has no non-empty segment exactly when it is made of
    slashes only; such a path is shown as ['/'], except the path ['/']
    itself, which is shown as the empty string: the empty path and
    ['//'] end the line with a slash, the root path does not. *)
Theorem shown_path_of_slashes (path : string) :
  only_slashes path = match segments path with
                      | [] => true
                      | _ :: _ => false
                      end
  /\ (if only_slashes path
      then shown_path path = (if path =? "/" then "" else "/")
      else shown_path path = "/" ++ JS.join "/" (segments path)
           /\ JS.join "/" (segments path) <> "").
Proof.
  split; [apply segments_none_iff|].
  pose proof (segments_none_iff path) as Hiff.
  destruct (only_slashes path) eqn:Hs.
  - unfold shown_path. destruct (path =? "/"); [reflexivity|].
    destruct (segments path); [reflexivity|discriminate Hiff].
  - assert (Hroot : (path =? "/") = false).
    { destruct (path =? "/") eqn:Hp; [|reflexivity].
      apply String.eqb_eq in Hp. subst path. discriminate Hs. }
    unfold shown_path. rewrite Hroot. split; [reflexivity|].
    apply join_proper_nonempty; [|apply segments_proper].
    destruct (segments path); [discriminate Hiff|discriminate].
Qed.

(* ===================================================================== *)
(** * The constructor: what it needs and what it guarantees *)
(* ===================================================================== *)

(** X13: the constructor throws a TypeError when [serverless] is [null]
    or [undefined] (reading [getProvider], on line 41); an error of
    [getProvider] itself is passed on; and once [getProvider] has
    returned, the constructor throws a TypeError when the [service] of
    [serverless] is [null] or [undefined] (reading the service name) or
    when the [provider] of that service is (reading the region). *)
Theorem constructor_needs_provider (E : Type)
  (getProvider logger_config defineCustomProperties : E -> Res E)
  (sls opts v3 : Val) (host : E) :
  (JS.not_nullish sls = false ->
   constructor getProvider logger_config defineCustomProperties
     sls opts v3 host
   = Rejected
       (TypeError
          ("Cannot read properties of "
             ++ match sls with VNull => "null" | _ => "undefined" end
             ++ " (reading 'getProvider')")))
  /\ (forall fields e,
        sls = VObj fields ->
        getProvider host = Rejected e ->
        constructor getProvider logger_config defineCustomProperties
          sls opts v3 host
        = Rejected e)
  /\ (forall fields host1,
        sls = VObj fields ->
        getProvider host = Resolved host1 ->
        JS.not_nullish (JS.lookup "service" fields) = false ->
        constructor getProvider logger_config defineCustomProperties
          sls opts v3 host
        = Rejected
            (TypeError
               ("Cannot read properties of "
                  ++ match JS.lookup "service" fields with
                     | VNull => "null"
                     | _ => "undefined"
                     end
                  ++ " (reading 'service')")))
  /\ (forall fields host1 provider,
        sls = VObj fields ->
        getProvider host = Resolved host1 ->
        JS.not_nullish (JS.lookup "service" fields) = true ->
        JS.get (JS.lookup "service" fields) "provider" = Resolved provider ->
        JS.not_nullish provider = false ->
        constructor getProvider logger_config defineCustomProperties
          sls opts v3 host
        = Rejected
            (TypeError
               ("Cannot read properties of "
                  ++ match provider with VNull => "null" | _ => "undefined" end
                  ++ " (reading 'region')"))).
Proof.
  unfold constructor. repeat split.
  - intros Hs. destruct sls; try discriminate Hs; reflexivity.
  - intros fields e -> Hgp. cbn. rewrite Hgp. reflexivity.
  - intros fields host1 -> Hgp Hn. cbn. rewrite Hgp. cbn.
    destruct (JS.lookup "service" fields); try discriminate Hn; reflexivity.
  - intros fields host1 provider -> Hgp Hsvc Hprov Hn. cbn. rewrite Hgp. cbn.
    destruct (JS.get (JS.lookup "service" fields) "service") as [name|e]
      eqn:Hname; cbn.
    + rewrite Hprov. cbn.
      destruct provider; try discriminate Hn; reflexivity.
    + destruct (JS.lookup "service" fields); cbn in Hname, Hsvc;
        discriminate.
Qed.

(** X14: a plugin object that the constructor built has a stage and
    options that JavaScript counts as true: a stage the provider
    supplies is kept as it is, options that are given are kept as they
    are, and [{}] stands in for options that are not; the region has no
    default and is whatever the provider holds. *)
Theorem constructor_fields (E : Type)
  (getProvider logger_config defineCustomProperties : E -> Res E)
  (sls opts v3 : Val) (host : E)
  (p : Plugin E) (svc provider given : Val) :
  constructor getProvider logger_config defineCustomProperties
    sls opts v3 host = Resolved p ->
  JS.get sls "service" = Resolved svc ->
  JS.get svc "provider" = Resolved provider ->
  JS.get provider "stage" = Resolved given ->
  JS.truthy (stage p) = true
  /\ JS.truthy (options p) = true
  /\ (if JS.truthy given then stage p = given
      else stage p = VStr "ap-southeast-2")
  /\ (if JS.truthy opts then options p = opts
      else options p = VObj [])
  /\ JS.get provider "region" = Resolved (region p)
  /\ JS.get svc "service" = Resolved (service p).
Proof.
  intros Hp Hsvc Hprov Hstage.
  destruct (constructor_resolved E getProvider logger_config
              defineCustomProperties sls opts v3 host p Hp)
    as [svc' [name [provider' [reg [given' [host' H]]]]]].
  destruct H as [Hsvc' [Hname [Hprov' [Hreg [Hstage' Hfields]]]]].
  rewrite Hsvc in Hsvc'. inversion Hsvc'; subst svc'.
  rewrite Hprov in Hprov'. inversion Hprov'; subst provider'.
  rewrite Hstage in Hstage'. inversion Hstage'; subst given'.
  subst p. cbn. unfold JS.or.
  destruct (JS.truthy given) eqn:Hg; destruct (JS.truthy opts) eqn:Ho;
    repeat split; auto.
Qed.

(* ===================================================================== *)
(** * The event hook and what [httpValidate] returns *)
(* ===================================================================== *)

Lemma get_rejects_with_TypeError (v : Val) (k : string) (e : Err) :
  JS.get v k = Rejected e -> exists msg, e = TypeError msg.
Proof.
  destruct v; cbn; intros H; inversion H; eexists; reflexivity.
Qed.

Section EventFacts.

Variable E : Type.
Variable mixin : Method -> Val -> Plugin E -> Res Val * Plugin E.

Ltac step_call :=
  match goal with
  | |- context [mixin ?m ?a ?p] =>
      let r := fresh "r" in
      let p' := fresh "p" in
      let Hc := fresh "Hcall" in
      destruct (mixin m a p) as [r p'] eqn:Hc; destruct r; cbn
  end.

(** X15: in a run of the event hook where [httpValidate] resolves with
    a value whose event list cannot be measured (the value, or its
    [events], is [null] or [undefined]), the hook rejects with the
    TypeError of that read, right after the validation is stored: no
    compiler of the HTTP chain runs, and the event-bus compiler does not
    run either. *)
Theorem compileEvents_unreadable_validation (w : World E) (x v : Val)
  (p1 p2 : Plugin E) (e : Err) :
  mixin compileScheduledEvents VUndefined (plug w) = (Resolved x, p1) ->
  mixin httpValidate VUndefined p1 = (Resolved v, p2) ->
  events_length v = Rejected e ->
  package_compileEvents mixin w = (Rejected e, validated_world v p2 w)
  /\ (exists msg, e = TypeError msg)
  /\ called (made w (validated_world v p2 w))
     = [compileScheduledEvents; httpValidate].
Proof.
  intros Hs Hv He. split; [|split].
  - unfold package_compileEvents, http_chain, then_,
      BbPromise_bind, BbPromise_resolve, resolve, call, eval, this,
      set_pluginhttpValidated, set_validated, validated_world,
      with_validated.
    cbn. rewrite Hs. cbn. rewrite Hv. cbn.
    unfold events_length, and_then in He.
    destruct (JS.get v "events") as [evs|e'] eqn:Hevs; cbn.
    + rewrite He. cbn. rewrite <- app_assoc. reflexivity.
    + inversion He; subst e'. rewrite <- app_assoc. reflexivity.
  - unfold events_length, and_then in He.
    destruct (JS.get v "events") as [evs|e'] eqn:Hevs.
    + apply (get_rejects_with_TypeError evs "length" e He).
    + inversion He; subst e'.
      apply (get_rejects_with_TypeError v "events" e Hevs).
  - unfold made, validated_world. cbn.
    rewrite skipn_length_app. reflexivity.
Qed.

Ltac step_call_keeping Hkeep :=
  match goal with
  | |- context [mixin ?m ?a ?p] =>
      let r := fresh "r" in
      let p' := fresh "p" in
      let Hc := fresh "Hcall" in
      let Hne := fresh "Hother" in
      let Hk := fresh "Hkept" in
      assert (m <> httpValidate) as Hne by discriminate;
      pose proof (Hkeep m a p Hne) as Hk; clear Hne;
      destruct (mixin m a p) as [r p'] eqn:Hc;
      cbn in Hk; destruct Hk; destruct r; cbn
  end.

Ltac step_glue :=
  match goal with
  | |- context [JS.get ?v ?k] => destruct (JS.get v k); cbn
  | |- context [JS.is_number ?n ?v] => destruct (JS.is_number n v); cbn
  end.

(** X16: in a run of the event hook where the schedule compiler
    resolved and [httpValidate], called on the plugin object it left,
    resolved with [v], both [this.pluginhttpValidated] and
    [this.validated] hold [v] at the end of the run, whichever way it
    ends, as long as the other mixed-in methods do not assign the two
    fields. *)
Theorem compileEvents_validated_alias
  (Hkeep : keeps_validated mixin) (w : World E) (x v : Val)
  (p1 p2 : Plugin E) :
  mixin compileScheduledEvents VUndefined (plug w) = (Resolved x, p1) ->
  mixin httpValidate VUndefined p1 = (Resolved v, p2) ->
  pluginhttpValidated (plug (snd (package_compileEvents mixin w))) = v
  /\ validated (plug (snd (package_compileEvents mixin w))) = v.
Proof.
  intros Hs Hv.
  unfold package_compileEvents, http_chain, then_,
    BbPromise_bind, BbPromise_resolve, resolve, call, eval, this,
    set_pluginhttpValidated, set_validated.
  cbn. rewrite Hs. cbn. rewrite Hv. cbn. clear Hs Hv.
  repeat first [step_glue | step_call_keeping Hkeep];
    split; congruence.
Qed.

End EventFacts.

(* ===================================================================== *)
(** * The runs that go wrong, run *)
(* ===================================================================== *)

Section Failures.

Import Scenario.
Import Failure.

(** The state machine does not exist: [startExecution] rejects. *)
Lemma invoke_request_rejected_witness :
  invoke no_such_machine history merge world
  = (Rejected (Failure (VStr "StateMachineDoesNotExist")),
     {| plug := plugin; log := []; exitCode := 0;
        trace := [(getStateMachineArn, true); (startExecution, false)] |})
  /\ exists t,
      [(getStateMachineArn, true); (startExecution, false)]
      = (trace world ++ t)%list
      /\ starts_with (called t) (called requests) = true
      /\ stops_at_first_failure t = true
      /\ forallb snd t = false
      /\ ~ In getExecutionHistory (called t).
Proof.
  pose proof
    (invoke_request_rejected (list string) no_such_machine history merge
       world
       {| plug := plugin; log := []; exitCode := 0;
          trace := [(getStateMachineArn, true); (startExecution, false)] |}
       (Failure (VStr "StateMachineDoesNotExist")) eq_refl)
    as [Hrun [_ [_ Htrace]]].
  split; [exact Hrun|exact Htrace].
Defined.

(** [describeExecution] resolving with [null]. *)
Lemma invoke_nullish_result_witness :
  let w' := snd (invoke (mixin validated_none VNull) history merge world) in
  (exists msg,
      fst (invoke (mixin validated_none VNull) history merge world)
      = Rejected (TypeError msg))
  /\ log w' = (log world ++ [VStr ""])%list
  /\ exitCode w' = exitCode world
  /\ trace w' = (trace world ++ requests)%list.
Proof.
  apply (invoke_nullish_result (list string) (mixin validated_none VNull)
           history merge world
           {| plug := plugin; log := []; exitCode := 0; trace := requests |}
           VNull);
    reflexivity.
Defined.

(** The history request throttled. *)
Lemma invoke_history_rejected_witness :
  invoke (mixin validated_none failed) history_unavailable merge world
  = (Rejected (Failure (VStr "ThrottlingException")),
     {| plug := plugin;
        log := log world ++ [VStr ""];
        exitCode := exitCode world;
        trace := trace world ++ requests ++ [(getExecutionHistory, false)] |}).
Proof.
  apply (invoke_history_rejected (list string) (mixin validated_none failed)
           history_unavailable merge world
           {| plug := plugin; log := []; exitCode := 0; trace := requests |}
           failed (VStr "FAILED") (Failure (VStr "ThrottlingException"))
           plugin);
    reflexivity.
Defined.

(** A history that ends with [null]. *)
Lemma invoke_history_without_last_event_witness :
  let w' :=
    snd (invoke (mixin validated_none failed) history_null_event merge world) in
  (exists msg,
      fst (invoke (mixin validated_none failed) history_null_event merge world)
      = Rejected (TypeError msg))
  /\ log w' = (log world ++ [VStr ""])%list
  /\ exitCode w' = exitCode world
  /\ trace w' = (trace world ++ requests ++ [(getExecutionHistory, true)])%list.
Proof.
  apply (invoke_history_without_last_event (list string)
           (mixin validated_none failed) history_null_event merge world
           {| plug := plugin; log := []; exitCode := 0; trace := requests |}
           failed (VStr "FAILED")
           {| events := [VObj [("type", VStr "ExecutionStarted")]; VNull] |}
           plugin);
    try reflexivity.
  right. exists [VObj [("type", VStr "ExecutionStarted")]], VNull.
  split; reflexivity.
Defined.

(** One binding without a path after a good one: nothing is shown. *)
Lemma display_resolves_iff_witness :
  resolved
    (fst (display isStateMachines getAllStateMachines
            (fun _ _ => Resolved half_bound) plain plain plain plain
            toUpperCase toString world))
  = forallb well_formed_machine [half_bound].
Proof.
  apply (display_resolves_iff (list string) isStateMachines
           getAllStateMachines (fun _ _ => Resolved half_bound)
           plain plain plain plain toUpperCase toString world [half_bound]).
  exists (VBool true). split; [reflexivity|]. cbn.
  exists [VStr "OrderFlow"]. split; [reflexivity|].
  constructor; [reflexivity|constructor].
Defined.

Example display_half_bound :
  display isStateMachines getAllStateMachines
    (fun _ _ => Resolved half_bound) plain plain plain plain toUpperCase toString world
  = (Rejected
       (TypeError "Cannot read properties of undefined (reading 'split')"),
     world).
Proof. reflexivity. Qed.

(** With a binding that has no path, the good binding before it is not
    shown either: the step throws instead of printing its line. *)
Lemma binding_without_path_not_shown :
  ~ every_binding_shown isStateMachines getAllStateMachines
      (fun _ _ => Resolved half_bound) plain plain plain plain
      toUpperCase toString.
Proof.
  intros Hall.
  assert (Hconf : configured isStateMachines getAllStateMachines
                    (fun _ _ => Resolved half_bound) (plug world)
                    [half_bound]).
  { exists (VBool true). split; [reflexivity|]. cbn.
    exists [VStr "OrderFlow"]. split; [reflexivity|].
    constructor; [reflexivity|constructor]. }
  specialize (Hall world [half_bound] Hconf).
  cbn in Hall. discriminate Hall.
Qed.

(** The endpoint found after the deployment is the one shown. *)
Lemma after_deploy_shows_stored_endpoint_witness :
  let w0 := {| plug := constructed; log := []; exitCode := 0%Z; trace := [] |} in
  let p' := snd (found_endpoint getEndpointInfo VUndefined constructed) in
  let w1 := after_call getEndpointInfo true p' w0 in
  let host := toString (endpointInfo p') in
  let message :=
    (heading plain plain plain plain p'
       ++ text (map (line_of toUpperCase host) (http_bindings [order_flow])))
      ++ String "010" "" in
  after_deploy_deploy found_endpoint isStateMachines getAllStateMachines
    getStateMachine plain plain plain plain toUpperCase toString w0
  = match http_bindings [order_flow] with
    | [] => (Resolved (VStr ""), w1)
    | _ :: _ => (Resolved (VStr message), logged message w1)
    end.
Proof.
  apply (after_deploy_shows_stored_endpoint (list string) found_endpoint
           isStateMachines getAllStateMachines getStateMachine
           plain plain plain plain toUpperCase toString
           {| plug := constructed; log := []; exitCode := 0%Z; trace := [] |}
           VUndefined
           (snd (found_endpoint getEndpointInfo VUndefined constructed))
           [order_flow]).
  - reflexivity.
  - exists (VBool true). split; [reflexivity|]. cbn.
    exists [VStr "OrderFlow"]. split; [reflexivity|].
    constructor; [reflexivity|constructor].
  - reflexivity.
Defined.

(** A path with slashes to spare. *)
Lemma shown_path_idempotent_witness :
  segments (shown_path "//orders///{id}/") = segments "//orders///{id}/"
  /\ shown_path (shown_path "//orders///{id}/")
     = shown_path "//orders///{id}/".
Proof.
  apply (shown_path_idempotent "//orders///{id}/"). discriminate.
Defined.

Example shown_paths :
  map shown_path [""; "/"; "//"; "orders"; "//orders///{id}/"]
  = ["/"; ""; "/"; "/orders"; "/orders/{id}"].
Proof. reflexivity. Qed.

(** A service without a provider. *)
Lemma constructor_needs_provider_witness :
  constructor (fun h => Resolved h) (fun h => Resolved h)
    (fun h => Resolved h) VUndefined VUndefined VUndefined tt
  = Rejected
      (TypeError "Cannot read properties of undefined (reading 'getProvider')")
  /\ constructor (fun h => Resolved h) (fun h => Resolved h)
       (fun h => Resolved h)
       (VObj [("service", VObj [("service", VStr "orders")])])
       VUndefined VUndefined tt
     = Rejected
         (TypeError "Cannot read properties of undefined (reading 'region')").
Proof.
  split.
  - apply (proj1 (constructor_needs_provider unit (fun h => Resolved h)
                    (fun h => Resolved h) (fun h => Resolved h)
                    VUndefined VUndefined VUndefined tt)).
    reflexivity.
  - apply (proj2 (proj2 (proj2
             (constructor_needs_provider unit (fun h => Resolved h)
                (fun h => Resolved h) (fun h => Resolved h)
                (VObj [("service", VObj [("service", VStr "orders")])])
                VUndefined VUndefined tt)))
             [("service", VObj [("service", VStr "orders")])] tt VUndefined);
      reflexivity.
Defined.

(** A provider with a stage and no region, options given. *)
Lemma constructor_fields_witness :
  let provider := VObj [("stage", VStr "prod")] in
  let svc := VObj [("service", VStr "orders"); ("provider", provider)] in
  let opts := VObj [("name", VStr "OrderFlow")] in
  let p :=
    {| serverless := VObj [("service", svc)];
       options := opts; v3Api := VUndefined;
       service := VStr "orders"; region := VUndefined;
       stage := VStr "prod";
       pluginhttpValidated := VUndefined; validated := VUndefined;
       endpointInfo := VUndefined; rest := tt |} in
  JS.truthy (stage p) = true
  /\ JS.truthy (options p) = true
  /\ (if JS.truthy (VStr "prod") then stage p = VStr "prod"
      else stage p = VStr "ap-southeast-2")
  /\ (if JS.truthy opts then options p = opts else options p = VObj [])
  /\ JS.get provider "region" = Resolved (region p)
  /\ JS.get svc "service" = Resolved (service p).
Proof.
  cbv zeta.
  apply (constructor_fields unit (fun h => Resolved h) (fun h => Resolved h)
           (fun h => Resolved h)
           (VObj [("service",
                   VObj [("service", VStr "orders");
                         ("provider", VObj [("stage", VStr "prod")])])])
           (VObj [("name", VStr "OrderFlow")]) VUndefined tt);
    reflexivity.
Defined.

(** [httpValidate] resolving with [undefined]. *)
Lemma compileEvents_unreadable_validation_witness :
  package_compileEvents (mixin VUndefined failed) world
  = (Rejected
       (TypeError "Cannot read properties of undefined (reading 'events')"),
     validated_world VUndefined (emit compileScheduledEvents plugin) world)
  /\ (exists msg,
        TypeError "Cannot read properties of undefined (reading 'events')"
        = TypeError msg)
  /\ called
       (made world
          (validated_world VUndefined (emit compileScheduledEvents plugin)
             world))
     = [compileScheduledEvents; httpValidate].
Proof.
  apply (compileEvents_unreadable_validation (list string)
           (mixin VUndefined failed) world VUndefined VUndefined
           (emit compileScheduledEvents plugin)
           (emit compileScheduledEvents plugin)
           (TypeError "Cannot read properties of undefined (reading 'events')"));
    reflexivity.
Defined.

(** Scenario B: both fields hold the validated events. *)
Lemma compileEvents_validated_alias_witness :
  pluginhttpValidated
    (plug (snd (package_compileEvents (mixin validated_one failed) world)))
  = validated_one
  /\ validated
       (plug (snd (package_compileEvents (mixin validated_one failed) world)))
     = validated_one.
Proof.
  apply (compileEvents_validated_alias (list string)
           (mixin validated_one failed)
           (fun m arg p Hother =>
              match m as m0
                return m0 <> httpValidate ->
                       pluginhttpValidated
                         (snd (mixin validated_one failed m0 arg p))
                       = pluginhttpValidated p
                       /\ validated (snd (mixin validated_one failed m0 arg p))
                          = validated p
              with
              | httpValidate => fun H => False_ind _ (H eq_refl)
              | _ => fun _ => conj eq_refl eq_refl
              end Hother)
           world VUndefined validated_one
           (emit compileScheduledEvents plugin)
           (emit compileScheduledEvents plugin));
    reflexivity.
Defined.

End Failures.
